(** * AutoHub: the bidding-to-booking rules of the marketplace server

    A shallow embedding of the Express/Mongoose request handlers of the
    vehicle marketplace, the serverless API and the local socket.io server,
    for the routes that write to the store or list bids:

      POST /api/register            POST /api/reset-password
      POST /api/vehicles            POST /api/bids
      GET  /api/vehicles/:id/bids   POST /api/bookings
      POST /api/forgot-password

    The remaining routes (login, profile, the listings of vehicles, bids and
    bookings, verify-reset-token) only read.

    How the program is modelled:

    - A JavaScript number is NaN, an infinity or the rational it denotes;
      [parseFloat] and [parseInt] follow the ECMAScript grammar on ASCII
      strings and round to the nearest binary64 value.
    - A handler is a function in a small monad over the store: a step goes
      on, sends the response (an early [return res.status(..).json(..)]) or
      throws into the [catch] block of the handler.
    - The vehicles are a finite map keyed by [_id]; users, bids, bookings
      and reset tokens are lists in insertion order. A query sorted on
      [amount] is a stable sort of the matching documents: the source gives
      no second key, and documents with equal amounts come in the order of
      the collection.
    - [save], [create], [updateMany], [deleteMany] and [deleteOne] write to
      the store as the handler asks; casting and validation by the schema
      library are not part of the source and are not modelled. A write, an
      upload or a mail may throw: how many go through before one throws is
      an input of every request. Reads do not throw.
    - Clock readings, random bytes and hash functions are inputs. *)

From Stdlib Require Import QArith Ascii String.
From stdpp Require Import gmap strings list sorting.

(** ** Numbers *)

Module Num.

Local Open Scope Z_scope.

(** A JavaScript Number: NaN, -Infinity, a finite value, +Infinity. *)
Inductive number : Type :=
  | NaN
  | NegInf
  | Fin (q : Q)
  | PosInf.

Definition isNaN (x : number) : bool :=
  match x with NaN => true | _ => false end.

Definition neg (x : number) : number :=
  match x with
  | NaN => NaN
  | NegInf => PosInf
  | Fin q => Fin (Qopp q)
  | PosInf => NegInf
  end.

(** [x <= y] of JavaScript: false as soon as one side is NaN. *)
Definition le (x y : number) : bool :=
  match x, y with
  | NaN, _ | _, NaN => false
  | NegInf, _ => true
  | _, PosInf => true
  | Fin a, Fin b => Qle_bool a b
  | Fin _, NegInf => false
  | PosInf, _ => false
  end.

(** [x > y] of JavaScript. *)
Definition gt (x y : number) : bool :=
  match x, y with
  | NaN, _ | _, NaN => false
  | _, _ => negb (le x y)
  end.

(** The order a sorted query puts numbers in: NaN below every number,
    then -Infinity, the finite values, +Infinity. It is total. *)
Definition sort_le (x y : number) : bool :=
  match x, y with
  | NaN, _ => true
  | _, NaN => false
  | _, _ => le x y
  end.

(** Round the non-negative rational [n/d] to the nearest binary64 value,
    ties to even; at or above 2^1024 the result is +Infinity. *)
Definition round_div_even (n d : Z) : Z :=
  let q := n / d in
  match (2 * (n mod d) ?= d) with
  | Lt => q
  | Gt => q + 1
  | Eq => if Z.even q then q else q + 1
  end.

Definition scale (n d e : Z) : Z * Z :=
  if 0 <=? e then (n, d * 2 ^ e) else (n * 2 ^ (- e), d).

Definition binade (n d : Z) : Z :=
  let e0 := Z.log2 n - Z.log2 d in
  let '(n', d') := scale n d e0 in
  if n' <? d' then e0 - 1 else e0.

Definition round_double (n d : Z) : number :=
  if n =? 0 then Fin 0 else
  let e := Z.max (binade n d) (-1022) in
  let sh := e - 52 in
  let '(n', d') := scale n d sh in
  let m := round_div_even n' d' in
  if 0 <=? sh
  then (if 2 ^ 1024 <=? m * 2 ^ sh then PosInf else Fin (inject_Z (m * 2 ^ sh)))
  else Fin (Qred (m # Z.to_pos (2 ^ (- sh)))).

(** [m * 10^k] as a double, for a non-negative integer [m]. *)
Definition decimal (m k : Z) : number :=
  if 0 <=? k then round_double (m * 10 ^ k) 1 else round_double m (10 ^ (- k)).

End Num.

Export Num(number(..)).

(** ** parseFloat *)

Module Parse.

Local Open Scope Z_scope.

Definition code (c : ascii) : Z := Z.of_N (N_of_ascii c).

Definition is_digit (c : ascii) : bool := (48 <=? code c) && (code c <=? 57).

Definition is_space (c : ascii) : bool :=
  ((9 <=? code c) && (code c <=? 13)) || (code c =? 32).

Definition is_e (c : ascii) : bool := (code c =? 101) || (code c =? 69).

Fixpoint trim_start (s : string) : string :=
  match s with
  | String c s' => if is_space c then trim_start s' else s
  | EmptyString => s
  end.

(** The longest run of decimal digits at the head of [s]: the value read
    (continuing from [acc]), how many digits were read, and the rest. *)
Fixpoint digits (s : string) (acc : Z) (n : nat) : Z * nat * string :=
  match s with
  | String c s' =>
      if is_digit c then digits s' (10 * acc + (code c - 48)) (S n)
      else (acc, n, s)
  | EmptyString => (acc, n, s)
  end.

(** ExponentPart, when [s] starts with one; 0 otherwise (an [e] that no
    digit follows is not part of the literal). *)
Definition exponent (s : string) : Z :=
  match s with
  | String c s' =>
      if is_e c then
        match s' with
        | String "+" s'' => (digits s'' 0 0).1.1
        | String "-" s'' => - (digits s'' 0 0).1.1
        | _ => (digits s' 0 0).1.1
        end
      else 0
  | EmptyString => 0
  end.

(** StrUnsignedDecimalLiteral: the longest prefix of [s] that is one;
    NaN when there is none. *)
Definition unsigned_literal (s : string) : number :=
  if String.prefix "Infinity" s then PosInf else
  let '(ip, ni, r1) := digits s 0 0 in
  match r1 with
  | String "." r2 =>
      let '(m, nf, r3) := digits r2 ip 0 in
      if (ni + nf =? 0)%nat then NaN
      else Num.decimal m (exponent r3 - Z.of_nat nf)
  | _ =>
      if (ni =? 0)%nat then NaN else Num.decimal ip (exponent r1)
  end.

Definition parseFloat_string (s : string) : number :=
  match trim_start s with
  | String "-" r => Num.neg (unsigned_literal r)
  | String "+" r => unsigned_literal r
  | r => unsigned_literal r
  end.

Definition hex_val (c : ascii) : option Z :=
  if is_digit c then Some (code c - 48)
  else if (97 <=? code c) && (code c <=? 102) then Some (code c - 87)
  else if (65 <=? code c) && (code c <=? 70) then Some (code c - 55)
  else None.

Fixpoint hex_digits (s : string) (acc : Z) (n : nat) : Z * nat :=
  match s with
  | String c s' =>
      match hex_val c with
      | Some v => hex_digits s' (16 * acc + v) (S n)
      | None => (acc, n)
      end
  | EmptyString => (acc, n)
  end.

(** The digits of [parseInt] with no radix given: hexadecimal after a
    [0x] or [0X] prefix, decimal otherwise; NaN when no digit is read. *)
Definition unsigned_integer (s : string) : number :=
  let '(v, n) :=
    match s with
    | String "0" (String c r) =>
        if (code c =? 120) || (code c =? 88) then hex_digits r 0 0
        else (digits s 0 0).1
    | _ => (digits s 0 0).1
    end in
  if (n =? 0)%nat then NaN else Num.round_double v 1.

Definition parseInt_string (s : string) : number :=
  match trim_start s with
  | String "-" r => Num.neg (unsigned_integer r)
  | String "+" r => unsigned_integer r
  | r => unsigned_integer r
  end.

End Parse.

(** ** Request values *)

(** The values a JSON body field can hold (objects and arrays left out). *)
Inductive jsval : Type :=
  | VUndefined
  | VNull
  | VBool (b : bool)
  | VNum (n : number)
  | VStr (s : string).

(** [!v] is false: the value is truthy. *)
Definition truthy (v : jsval) : bool :=
  match v with
  | VUndefined | VNull => false
  | VBool b => b
  | VNum NaN => false
  | VNum (Fin q) => negb (Qeq_bool q 0)
  | VNum _ => true
  | VStr s => negb (String.eqb s "")
  end.

(** [parseFloat(v)]: the argument is converted to a string and parsed; a
    number prints to a string that parses back to itself. *)
Definition parseFloat (v : jsval) : number :=
  match v with
  | VUndefined | VNull | VBool _ => NaN
  | VNum n => n
  | VStr s => Parse.parseFloat_string s
  end.

(** ** Documents *)

(** An ObjectId. *)
Definition oid : Type := nat.

Module User.
Record t : Type := mk {
  _id : oid;
  name : string;
  email : string;
  password : string;
  phone : string;
  createdAt : nat
}.

Definition set_password (p : string) (u : t) : t :=
  mk (_id u) (name u) (email u) p (phone u) (createdAt u).
End User.

Module Vehicle.
(** A vehicle document; its [_id] is its key in the collection. *)
Record t : Type := mk {
  sellerId : oid;
  brand : string;
  model : string;
  year : number;
  price : number;
  type : string;
  condition : string;
  mileage : number;
  description : string;
  images : list string;
  contactName : string;
  contactPhone : string;
  status : string;
  createdAt : nat
}.

Definition set_status (s : string) (v : t) : t :=
  mk (sellerId v) (brand v) (model v) (year v) (price v) (type v)
     (condition v) (mileage v) (description v) (images v) (contactName v)
     (contactPhone v) s (createdAt v).
End Vehicle.

Module Bid.
Record t : Type := mk {
  _id : oid;
  vehicleId : oid;
  userId : oid;
  amount : number;
  status : string;
  createdAt : nat
}.

Definition set_status (s : string) (b : t) : t :=
  mk (_id b) (vehicleId b) (userId b) (amount b) s (createdAt b).

End Bid.

Module Booking.
Record t : Type := mk {
  _id : oid;
  vehicleId : oid;
  buyerId : oid;
  sellerId : oid;
  bidId : oid;
  finalPrice : number;
  status : string;
  createdAt : nat
}.
End Booking.

Module ResetToken.
Record t : Type := mk {
  _id : oid;
  userId : oid;
  token : string;
  createdAt : nat
}.
End ResetToken.

(** ** The data store *)

Record DB : Type := mkDB {
  users : list User.t;
  vehicles : gmap oid Vehicle.t;
  bids : list Bid.t;
  bookings : list Booking.t;
  resetTokens : list ResetToken.t
}.

Definition emptyDB : DB := mkDB [] ∅ [] [] [].

Definition with_users (f : list User.t → list User.t) (d : DB) : DB :=
  mkDB (f (users d)) (vehicles d) (bids d) (bookings d) (resetTokens d).
Definition with_vehicles (f : gmap oid Vehicle.t → gmap oid Vehicle.t) (d : DB) : DB :=
  mkDB (users d) (f (vehicles d)) (bids d) (bookings d) (resetTokens d).
Definition with_bids (f : list Bid.t → list Bid.t) (d : DB) : DB :=
  mkDB (users d) (vehicles d) (f (bids d)) (bookings d) (resetTokens d).
Definition with_bookings (f : list Booking.t → list Booking.t) (d : DB) : DB :=
  mkDB (users d) (vehicles d) (bids d) (f (bookings d)) (resetTokens d).
Definition with_resetTokens (f : list ResetToken.t → list ResetToken.t) (d : DB) : DB :=
  mkDB (users d) (vehicles d) (bids d) (bookings d) (f (resetTokens d)).

(** *** Queries *)

(** [.sort({ amount: -1 })]: a stable insertion sort, largest amount first;
    documents with equal amounts keep the order of the collection, and NaN
    sorts below every number. *)
Fixpoint insert_desc (b : Bid.t) (l : list Bid.t) : list Bid.t :=
  match l with
  | [] => [b]
  | x :: l' =>
      if Num.sort_le (Bid.amount x) (Bid.amount b) then b :: l
      else x :: insert_desc b l'
  end.

Definition sort_desc (l : list Bid.t) : list Bid.t := foldr insert_desc [] l.

(** [Bid.find({ vehicleId, status: 'pending' })] *)
Definition pending (d : DB) (vehicleId : oid) : list Bid.t :=
  filter (λ b, Bid.vehicleId b = vehicleId ∧ Bid.status b = "pending") (bids d).

(** [Bid.findOne({ vehicleId, status: 'pending' }).sort({ amount: -1 })] *)
Definition highestPending (d : DB) (vehicleId : oid) : option Bid.t :=
  head (sort_desc (pending d vehicleId)).

(** [User.findOne({ email })] *)
Definition findUserByEmail (d : DB) (email : string) : option User.t :=
  List.find (λ u, bool_decide (User.email u = email)) (users d).

(** [User.findById] *)
Definition findUserById (d : DB) (id : oid) : option User.t :=
  List.find (λ u, bool_decide (User._id u = id)) (users d).

(** *** Updates *)

(** [vehicle.status = 'sold'; vehicle.save()]: sets the modified path of
    the document with this [_id]. *)
Definition markSold (vehicleId : oid) : DB → DB :=
  with_vehicles (alter (Vehicle.set_status "sold") vehicleId).

(** [highestBid.status = 'accepted'; highestBid.save()] *)
Definition markAccepted (bidId : oid) : DB → DB :=
  with_bids (fmap (λ b, if decide (Bid._id b = bidId)
                        then Bid.set_status "accepted" b else b)).

(** [Bid.updateMany({ vehicleId, _id: { $ne: bidId }, status: 'pending' },
                    { status: 'rejected' })] *)
Definition rejectOthers (vehicleId bidId : oid) : DB → DB :=
  with_bids (fmap (λ b,
    if decide (Bid.vehicleId b = vehicleId ∧ Bid._id b ≠ bidId
               ∧ Bid.status b = "pending")
    then Bid.set_status "rejected" b else b)).

(** ** Responses and side effects *)

(** A bid as [populate('userId', 'name email')] returns it: the bidder's
    [_id], [name] and [email] in place of the reference, or nothing when no
    such user exists. *)
Record BidView : Type := mkBidView {
  bid : Bid.t;
  bidder : option (oid * string * string)
}.

Inductive Body : Type :=
  | Message (message : string)
  | MessageVehicle (message : string) (vehicleId : oid) (vehicle : Vehicle.t)
  | MessageBid (message : string) (bid : Bid.t)
  | MessageBooking (message : string) (booking : Booking.t)
  | BidList (bids : list BidView)
  | MessageReset (message resetUrl token : string).

Record Response : Type := mkResponse { code : nat; body : Body }.

(** What a handler sends besides its response: socket.io broadcasts and
    mail. *)
Inductive Effect : Type :=
  | NewVehicle (vehicleId : oid)
  | NewBid (vehicleId : oid) (amount : number)
  | BookingConfirmed (vehicleId bookingId : oid)
  | ResetMail (to resetUrl : string)
  | PasswordChangedMail (to : string).

(** The two servers of the repository. *)
Inductive Variant : Type := Serverless | Local.

(** What one request reads from its environment: the clock, the random
    bytes of a reset token (in hex), the salt of a password hash,
    [process.env.BASE_URL] (empty when unset), and how many awaited writes,
    uploads and mails go through before one throws ([None]: none throws)
    with the message of the error thrown. *)
Record Env : Type := mkEnv {
  now : nat;
  randomBytes : string;
  salt : string;
  BASE_URL : string;
  budget : option nat;
  errorMessage : string
}.

(** The hash functions of the libraries:
    [crypto.createHash('sha256').update(s).digest('hex')] and
    [bcrypt.hash(password, 10)] with the salt it drew. *)
Class Crypto : Type := {
  sha256 : string → string;
  bcrypt : string → string → string
}.

(** ** Handlers *)

Record World : Type := mkWorld {
  db : DB;
  sent : list Effect;
  remaining : option nat
}.

(** A step of a handler goes on with a value, has sent the response
    ([return res.status(..).json(..)]), or has thrown. *)
Inductive Outcome (A : Type) : Type :=
  | Next (a : A)
  | Done (r : Response)
  | Thrown.
Arguments Next {A} a.
Arguments Done {A} r.
Arguments Thrown {A}.

Definition Handler (A : Type) : Type := World → Outcome A * World.

Global Instance Handler_ret : MRet Handler := λ A a w, (Next a, w).
Global Instance Handler_bind : MBind Handler := λ A B f m w,
  match m w with
  | (Next a, w') => f a w'
  | (Done r, w') => (Done r, w')
  | (Thrown, w') => (Thrown, w')
  end.

Definition reply {A} (code : nat) (body : Body) : Handler A :=
  λ w, (Done (mkResponse code body), w).

Definition read : Handler DB := λ w, (Next (db w), w).

(** An awaited effect: it throws when the budget is used up, and is
    applied otherwise. *)
Definition await (f : World → World) : Handler unit := λ w,
  match remaining w with
  | Some O => (Thrown, w)
  | Some (S k) => (Next (), mkWorld (db (f w)) (sent (f w)) (Some k))
  | None => (Next (), f w)
  end.

Definition write (f : DB → DB) : Handler unit :=
  await (λ w, mkWorld (f (db w)) (sent w) (remaining w)).

(** [transporter.sendMail] *)
Definition sendMail (mail : Effect) : Handler unit :=
  await (λ w, mkWorld (db w) (sent w ++ [mail]) (remaining w)).

(** An awaited call that changes nothing here (an upload to the image
    host). *)
Definition upload : Handler unit := await (λ w, w).

(** [io.emit]: only the local server has a socket. *)
Definition emit (var : Variant) (e : Effect) : Handler unit := λ w,
  match var with
  | Local => (Next (), mkWorld (db w) (sent w ++ [e]) (remaining w))
  | Serverless => (Next (), w)
  end.

(** [try { .. } catch (error) { res.status(500).json(..) }] *)
Definition try_catch (h : Handler Empty_set) (message : string)
    (w : World) : Response * World :=
  match h w with
  | (Next a, _) => match a with end
  | (Done r, w') => (r, w')
  | (Thrown, w') => (mkResponse 500 (Message message), w')
  end.

(** *** authenticateToken *)

Inductive Authorization : Type :=
  | NoToken
  | InvalidToken
  | Bearer (userId : oid).

Definition authenticateToken (a : Authorization)
    (next : oid → World → Response * World) (w : World) : Response * World :=
  match a with
  | NoToken => (mkResponse 401 (Message "Access token required"), w)
  | InvalidToken => (mkResponse 403 (Message "Invalid or expired token"), w)
  | Bearer userId => next userId w
  end.

(** *** POST /api/vehicles *)

Record VehicleForm : Type := mkVehicleForm {
  f_brand : string;
  f_model : string;
  f_year : string;
  f_price : string;
  f_type : string;
  f_condition : string;
  f_mileage : string;
  f_description : string;
  f_contactName : string;
  f_contactPhone : string
}.

Definition empty (s : string) : bool := String.eqb s "".

Definition postVehicle (var : Variant) (env : Env) (userId : oid)
    (form : VehicleForm) (files : list string) : Handler Empty_set :=
  if empty (f_brand form) || empty (f_model form) || empty (f_year form)
     || empty (f_price form) || empty (f_type form)
     || empty (f_condition form) || empty (f_mileage form)
     || empty (f_contactName form) || empty (f_contactPhone form)
  then reply 400 (Message "All required fields must be filled")
  else if bool_decide (files = [])
  then reply 400 (Message "At least one image is required")
  else
    match var with
    | Serverless => upload
    | Local => mret ()
    end;;
    d ← read;
    let images :=
      match var with
      | Serverless => files
      | Local => (λ f, "/uploads/" +:+ f) <$> files
      end in
    let vehicleId := fresh (dom (vehicles d)) in
    let vehicle :=
      Vehicle.mk userId (f_brand form) (f_model form)
        (Parse.parseInt_string (f_year form))
        (Parse.parseFloat_string (f_price form))
        (f_type form) (f_condition form)
        (Parse.parseInt_string (f_mileage form))
        (f_description form) images (f_contactName form)
        (f_contactPhone form) "available" (now env) in
    write (with_vehicles (insert vehicleId vehicle));;
    emit var (NewVehicle vehicleId);;
    reply 201 (MessageVehicle "Vehicle posted successfully" vehicleId vehicle).

(** *** POST /api/bids *)

Definition placeBid (var : Variant) (env : Env) (userId : oid)
    (vehicleId : option oid) (amount : jsval) : Handler Empty_set :=
  match vehicleId with
  | None => reply 400 (Message "Vehicle ID and amount required")
  | Some vehicleId =>
    if negb (truthy amount)
    then reply 400 (Message "Vehicle ID and amount required")
    else
      d ← read;
      match vehicles d !! vehicleId with
      | None => reply 404 (Message "Vehicle not found")
      | Some vehicle =>
        if bool_decide (Vehicle.status vehicle ≠ "available")
        then reply 400 (Message "Vehicle is no longer available")
        else if bool_decide (Vehicle.sellerId vehicle = userId)
        then reply 400 (Message "You cannot bid on your own vehicle")
        else if Num.le (parseFloat amount) (Vehicle.price vehicle)
        then reply 400 (Message "Bid must be higher than current price")
        else
          let highestBid := highestPending d vehicleId in
          if match highestBid with
             | Some highestBid => Num.le (parseFloat amount) (Bid.amount highestBid)
             | None => false
             end
          then reply 400 (Message "Bid must be higher than current highest bid")
          else
            let bid :=
              Bid.mk (fresh (Bid._id <$> bids d)) vehicleId userId
                     (parseFloat amount) "pending" (now env) in
            write (with_bids (λ l, l ++ [bid]));;
            emit var (NewBid vehicleId (parseFloat amount));;
            reply 201 (MessageBid "Bid placed successfully" bid)
      end
  end.

(** *** GET /api/vehicles/:id/bids *)

Definition populate (d : DB) (b : Bid.t) : BidView :=
  mkBidView b
    ((λ u, (User._id u, User.name u, User.email u)) <$> findUserById d (Bid.userId b)).

Definition listBids (id : oid) : Handler Empty_set :=
  d ← read;
  let bids := populate d <$> sort_desc (pending d id) in
  reply 200 (BidList bids).

(** *** POST /api/bookings *)

Definition confirmBooking (var : Variant) (env : Env) (userId : oid)
    (vehicleId : option oid) : Handler Empty_set :=
  d ← read;
  match vehicleId with
  | None => reply 404 (Message "Vehicle not found")
  | Some vehicleId =>
    match vehicles d !! vehicleId with
    | None => reply 404 (Message "Vehicle not found")
    | Some vehicle =>
      if bool_decide (Vehicle.status vehicle ≠ "available")
      then reply 400 (Message "Vehicle already booked")
      else if bool_decide (Vehicle.sellerId vehicle ≠ userId)
      then reply 403 (Message "Only seller can confirm booking")
      else
        match highestPending d vehicleId with
        | None => reply 400 (Message "No bids available")
        | Some highestBid =>
          let booking :=
            Booking.mk (fresh (Booking._id <$> bookings d)) vehicleId
              (Bid.userId highestBid) (Vehicle.sellerId vehicle)
              (Bid._id highestBid) (Bid.amount highestBid)
              "confirmed" (now env) in
          write (with_bookings (λ l, l ++ [booking]));;
          write (markSold vehicleId);;
          write (markAccepted (Bid._id highestBid));;
          write (rejectOthers vehicleId (Bid._id highestBid));;
          emit var (BookingConfirmed vehicleId (Booking._id booking));;
          reply 201 (MessageBooking "Booking confirmed" booking)
        end
    end
  end.

(** *** POST /api/forgot-password *)

Definition acknowledgement : string :=
  "If an account exists with this email, a reset link has been sent.".

Definition forgotPassword `{Crypto} (var : Variant) (env : Env)
    (email : string) : Handler Empty_set :=
  if empty email then reply 400 (Message "Email is required")
  else
    d ← read;
    match findUserByEmail d email with
    | None => reply 200 (Message acknowledgement)
    | Some user =>
      let resetToken := randomBytes env in
      let hashedToken := sha256 resetToken in
      write (with_resetTokens
               (filter (λ t, ResetToken.userId t ≠ User._id user)));;
      d' ← read;
      write (with_resetTokens (λ l, l ++
               [ResetToken.mk (fresh (ResetToken._id <$> resetTokens d'))
                  (User._id user) hashedToken (now env)]));;
      let baseUrl :=
        match var with
        | Serverless =>
            if empty (BASE_URL env)
            then "https://your-frontend-domain.vercel.app" else BASE_URL env
        | Local => "http://localhost:5500"
        end in
      let resetUrl :=
        baseUrl +:+ "/frontend/pages/reset-password.html?token=" +:+ resetToken
          +:+ "&email=" +:+ email in
      sendMail (ResetMail (User.email user) resetUrl);;
      match var with
      | Serverless => reply 200 (Message acknowledgement)
      | Local => reply 200 (MessageReset acknowledgement resetUrl resetToken)
      end
    end.

(** *** POST /api/register *)

Definition register `{Crypto} (env : Env) (name email password phone : string)
    : Handler Empty_set :=
  if empty name || empty email || empty password || empty phone
  then reply 400 (Message "All fields are required")
  else if String.length password <? 8
  then reply 400 (Message "Password must be at least 8 characters")
  else
    d ← read;
    match findUserByEmail d email with
    | Some existingUser => reply 400 (Message "Email already registered")
    | None =>
      let hashedPassword := bcrypt (salt env) password in
      let user :=
        User.mk (fresh (User._id <$> users d)) name email hashedPassword phone
                (now env) in
      write (with_users (λ l, l ++ [user]));;
      reply 201 (Message "Registration successful")
    end.

(** *** POST /api/reset-password *)

(** [ResetToken.deleteOne({ _id })] *)
Fixpoint deleteOne (id : oid) (l : list ResetToken.t) : list ResetToken.t :=
  match l with
  | [] => []
  | t :: l' => if decide (ResetToken._id t = id) then l' else t :: deleteOne id l'
  end.

Definition resetPassword `{Crypto} (env : Env) (token email newPassword : string)
    : Handler Empty_set :=
  if empty token || empty email || empty newPassword
  then reply 400 (Message "All fields are required")
  else if String.length newPassword <? 8
  then reply 400 (Message "Password must be at least 8 characters")
  else
    d ← read;
    match findUserByEmail d email with
    | None => reply 400 (Message "Invalid reset link")
    | Some user =>
      let hashedToken := sha256 token in
      match List.find (λ t, bool_decide (ResetToken.userId t = User._id user
                                         ∧ ResetToken.token t = hashedToken))
                      (resetTokens d) with
      | None => reply 400 (Message "Invalid or expired reset link")
      | Some resetToken =>
        let hashedPassword := bcrypt (salt env) newPassword in
        write (with_users (fmap (λ u,
                 if decide (User._id u = User._id user)
                 then User.set_password hashedPassword u else u)));;
        write (with_resetTokens (deleteOne (ResetToken._id resetToken)));;
        sendMail (PasswordChangedMail (User.email user));;
        reply 200 (Message
          "Password reset successful! You can now login with your new password.")
      end
    end.

(** ** The server *)

Inductive Request : Type :=
  | PostRegister (name email password phone : string)
  | PostResetPassword (token email newPassword : string)
  | PostVehicles (a : Authorization) (form : VehicleForm) (files : list string)
  | PostBids (a : Authorization) (vehicleId : option oid) (amount : jsval)
  | GetBids (id : oid)
  | PostBookings (a : Authorization) (vehicleId : option oid)
  | PostForgotPassword (email : string).

Definition route `{Crypto} (var : Variant) (env : Env) (req : Request)
    : World → Response * World :=
  match req with
  | PostRegister name email password phone =>
      try_catch (register env name email password phone) "Server error"
  | PostResetPassword token email newPassword =>
      try_catch (resetPassword env token email newPassword)
                "Error resetting password. Please try again."
  | PostVehicles a form files =>
      authenticateToken a (λ userId,
        try_catch (postVehicle var env userId form files)
                  ("Server error: " +:+ errorMessage env))
  | PostBids a vehicleId amount =>
      authenticateToken a (λ userId,
        try_catch (placeBid var env userId vehicleId amount) "Server error")
  | GetBids id => try_catch (listBids id) "Server error"
  | PostBookings a vehicleId =>
      authenticateToken a (λ userId,
        try_catch (confirmBooking var env userId vehicleId) "Server error")
  | PostForgotPassword email =>
      try_catch (forgotPassword var env email)
                "Error sending reset email. Please try again."
  end.

(** One request served on the store [d]: the response, the store
    afterwards, and what was broadcast or mailed. *)
Definition serve `{Crypto} (var : Variant) (env : Env) (req : Request)
    (d : DB) : Response * DB * list Effect :=
  let '(r, w) := route var env req (mkWorld d [] (budget env)) in
  (r, db w, sent w).

Definition response `{Crypto} var env req d : Response := (serve var env req d).1.1.
Definition store `{Crypto} var env req d : DB := (serve var env req d).1.2.

(** The store after a sequence of requests, each with its environment. *)
Fixpoint run `{Crypto} (var : Variant) (reqs : list (Env * Request))
    (d : DB) : DB :=
  match reqs with
  | [] => d
  | (env, req) :: reqs' => run var reqs' (store var env req d)
  end.


(** ** Specification predicates *)

(** [a] comes before [b] in a list sorted by amount, largest first. *)
Definition desc (a b : Bid.t) : Prop :=
  Num.sort_le (Bid.amount b) (Bid.amount a) = true.

(** [w] is the first document of [l] that none exceeds: those before it
    are strictly below it, those after it are at most equal. *)
Definition first_max (w : Bid.t) (l : list Bid.t) : Prop :=
  ∃ l1 l2, l = l1 ++ w :: l2
    ∧ Forall (λ b, Num.sort_le (Bid.amount w) (Bid.amount b) = false) l1
    ∧ Forall (λ b, Num.sort_le (Bid.amount b) (Bid.amount w) = true) l2.



(** No two bids share an [_id]. *)
Definition unique_bid_ids (d : DB) : Prop := NoDup (Bid._id <$> bids d).

(** The booking that confirms the sale of [vehicle] to the bidder of
    [highestBid]. *)
Definition bookingFor (env : Env) (d : DB) (vehicleId : oid)
    (vehicle : Vehicle.t) (highestBid : Bid.t) : Booking.t :=
  Booking.mk (fresh (Booking._id <$> bookings d)) vehicleId
    (Bid.userId highestBid) (Vehicle.sellerId vehicle)
    (Bid._id highestBid) (Bid.amount highestBid) "confirmed" (now env).

(** The four writes of a confirmation, in the order they are awaited. *)
Definition confirmWrites (booking : Booking.t) (vehicleId bidId : oid)
    : list (DB → DB) :=
  [ with_bookings (λ l, l ++ [booking]);
    markSold vehicleId;
    markAccepted bidId;
    rejectOthers vehicleId bidId ].

Definition applyWrites (ws : list (DB → DB)) (d : DB) : DB :=
  foldl (λ d f, f d) d ws.

(** How many of [n] awaited writes go through on a budget. *)
Definition completed (budget : option nat) (n : nat) : nat :=
  match budget with
  | None => n
  | Some k => k `min` n
  end.

(** Why a confirmation is refused, and the response sent then. *)
Inductive Refused (d : DB) (userId : oid) : option oid → Response → Prop :=
  | refused_no_id :
      Refused d userId None (mkResponse 404 (Message "Vehicle not found"))
  | refused_not_found vehicleId :
      vehicles d !! vehicleId = None →
      Refused d userId (Some vehicleId)
        (mkResponse 404 (Message "Vehicle not found"))
  | refused_not_available vehicleId vehicle :
      vehicles d !! vehicleId = Some vehicle →
      Vehicle.status vehicle ≠ "available" →
      Refused d userId (Some vehicleId)
        (mkResponse 400 (Message "Vehicle already booked"))
  | refused_not_seller vehicleId vehicle :
      vehicles d !! vehicleId = Some vehicle →
      Vehicle.status vehicle = "available" →
      Vehicle.sellerId vehicle ≠ userId →
      Refused d userId (Some vehicleId)
        (mkResponse 403 (Message "Only seller can confirm booking"))
  | refused_no_bids vehicleId vehicle :
      vehicles d !! vehicleId = Some vehicle →
      Vehicle.status vehicle = "available" →
      Vehicle.sellerId vehicle = userId →
      pending d vehicleId = [] →
      Refused d userId (Some vehicleId)
        (mkResponse 400 (Message "No bids available")).

(** A confirmation is all-or-nothing on a store when it leaves the store
    as it was or as the confirmation with no fault leaves it. *)
Definition allOrNothing `{Crypto} (var : Variant) (env : Env) (req : Request)
    (d : DB) : Prop :=
  store var env req d = d
  ∨ store var env req d =
      store var (mkEnv (now env) (randomBytes env) (salt env) (BASE_URL env)
                       None (errorMessage env)) req d.

(** What a confirmation does to one bid: the winner is accepted, every
    other pending bid of the vehicle is rejected, the rest is kept. *)
Definition settle (vehicleId bidId : oid) (b : Bid.t) : Bid.t :=
  if decide (Bid._id b = bidId) then Bid.set_status "accepted" b
  else if decide (Bid.vehicleId b = vehicleId ∧ Bid.status b = "pending")
  then Bid.set_status "rejected" b
  else b.

(** ** A small marketplace

    One seller (user 1) lists one car (vehicle 7) at 10000; users 2 and 3
    bid on it. *)

Module Demo.

Definition crypto : Crypto :=
  {| sha256 := λ s, "sha256:" +:+ s;
     bcrypt := λ salt p, "$2a$10$" +:+ salt +:+ p |}.

Definition env : Env := mkEnv 1000 "c0ffee" "N9qo8uLOickgx2ZMRZoMye" "" None "".

(** An environment in which the write after the first [k] throws. *)
Definition failing (k : nat) : Env :=
  mkEnv 1000 "c0ffee" "N9qo8uLOickgx2ZMRZoMye" "" (Some k) "write failed".

Definition people : list User.t :=
  [ User.mk 1 "Sam" "sam@example.com" "$2a$10$seller" "555-0101" 10;
    User.mk 2 "Bea" "bea@example.com" "$2a$10$bidder" "555-0102" 20;
    User.mk 3 "Cal" "cal@example.com" "$2a$10$bidder" "555-0103" 30 ].

Definition car : Vehicle.t :=
  Vehicle.mk 1 "Toyota" "Corolla" (Fin 2018) (Fin 10000) "Sedan" "Used"
    (Fin 42000) "" ["https://img.example.com/corolla.jpg"] "Sam" "555-0101"
    "available" 100.

(** The car is listed and has no bid. *)
Definition listed : DB := mkDB people {[ 7 := car ]} [] [] [].

(** Two bids are pending, 12000 and 15000. *)
Definition bidding : DB :=
  mkDB people {[ 7 := car ]}
    [ Bid.mk 0 7 2 (Fin 12000) "pending" 200;
      Bid.mk 1 7 3 (Fin 15000) "pending" 300 ] [] [].

(** The seller has confirmed the booking. *)
Definition sold : DB :=
  mkDB people {[ 7 := Vehicle.set_status "sold" car ]}
    [ Bid.mk 0 7 2 (Fin 12000) "rejected" 200;
      Bid.mk 1 7 3 (Fin 15000) "accepted" 300 ]
    [ Booking.mk 0 7 3 1 1 (Fin 15000) "confirmed" 1000 ] [].


(** The seller confirms the booking of the car. *)
Definition confirm : Request := PostBookings (Bearer 1) (Some 7).

End Demo.

(** The bid document that [placeBid] builds. *)
Definition bidFor (env : Env) (d : DB) (vehicleId userId : oid)
    (amount : jsval) : Bid.t :=
  Bid.mk (fresh (Bid._id <$> bids d)) vehicleId userId (parseFloat amount)
         "pending" (now env).


(** ** Proof automation *)

(** Unfold one request down to its guards. *)
Ltac run_handler :=
  unfold response, store, serve, route, authenticateToken, try_catch,
    register, resetPassword, postVehicle, placeBid, listBids, confirmBooking,
    forgotPassword, mbind, mret, Handler_bind, Handler_ret, read, write,
    sendMail, upload, await, emit, reply;
  simpl.


(** A bid stops being pending only once its vehicle has stopped being
    available. *)
Definition open_bids_pending (d : DB) : Prop :=
  ∀ b, b ∈ bids d → Bid.status b ≠ "pending" →
    ∃ vehicle, vehicles d !! Bid.vehicleId b = Some vehicle
               ∧ Vehicle.status vehicle ≠ "available".

(** The invariant of the store. *)
Definition consistent (d : DB) : Prop :=
  unique_bid_ids d ∧ open_bids_pending d.

(** * The rest of the server and of the client

    The routes that only read ([login], [verify-reset-token], the pages of
    vehicles, bids and bookings) are functions of the store: a read does
    not throw, so their [catch] blocks are not reached, apart from the
    listing of vehicles, whose [new RegExp] may throw. What the libraries
    compute (comparing a password with its hash, signing and verifying a
    token, matching a regular expression, comparing numbers in a query) is
    a parameter. *)

(** ** Invariants of the store *)

(** Each pending bid is not at or below a pending bid placed before it. *)
Definition rising (l : list Bid.t) : Prop :=
  StronglySorted (λ earlier later,
    Num.le (Bid.amount later) (Bid.amount earlier) = false) l.

(** The floor of every vehicle has only gone up. *)
Definition floor_kept (d : DB) : Prop :=
  ∀ vehicleId, rising (pending d vehicleId).

(** Bidding on a vehicle is closed: it is not available and none of its
    bids is pending. *)
Definition closed (d : DB) (vehicleId : oid) : Prop :=
  (∃ vehicle, vehicles d !! vehicleId = Some vehicle
              ∧ Vehicle.status vehicle ≠ "available")
  ∧ pending d vehicleId = [].

(** No vehicle has two bookings, and a booked vehicle is not available. *)
Definition booked_once (d : DB) : Prop :=
  NoDup (Booking.vehicleId <$> bookings d)
  ∧ ∀ booking, booking ∈ bookings d →
      ∃ vehicle, vehicles d !! Booking.vehicleId booking = Some vehicle
                 ∧ Vehicle.status vehicle ≠ "available".

(** No two accounts share an address. *)
Definition unique_emails (d : DB) : Prop := NoDup (User.email <$> users d).

(** No awaited call of these requests throws. *)
Definition faultless (reqs : list (Env * Request)) : Prop :=
  Forall (λ er, budget er.1 = None) reqs.

(** The user a request acts for: the one its token was verified for. *)
Definition caller (req : Request) : option oid :=
  match req with
  | PostVehicles (Bearer userId) _ _
  | PostBids (Bearer userId) _ _
  | PostBookings (Bearer userId) _ => Some userId
  | _ => None
  end.

(** ** Sessions *)

(** What the password and token libraries compute:
    [bcrypt.compare(password, hash)],
    [jwt.sign({ userId, email }, JWT_SECRET, { expiresIn: '24h' })] at a
    clock reading, and the [userId] of the payload that [jwt.verify]
    hands over at a clock reading, if it hands one over. *)
Class Sessions : Type := {
  compare : string → string → bool;
  sign : nat → oid → string → string;
  verify : nat → string → option oid
}.

(** The bodies of the routes that only read. A populated reference shows
    the selected fields of the user, or nothing when no such user exists. *)
Inductive Page : Type :=
  | Notice (message : string)
  | LoggedIn (token : string) (id : oid) (name email : string)
  | TokenValid (message : string)
  | VehiclePage (id : oid) (vehicle : Vehicle.t)
                (seller : option (oid * string * string * string))
  | MyBookingsPage
      (listing : list (Booking.t * option Vehicle.t
                       * option (oid * string * string * string)
                       * option (oid * string * string * string))).

(** *** authenticateToken, from the header *)

(** [header.split(' ')[1]]: what stands between the first space and the
    next one; nothing when the header has no space. *)
Fixpoint afterSpace (s : string) : option string :=
  match s with
  | EmptyString => None
  | String c s' => if Ascii.eqb c " " then Some s' else afterSpace s'
  end.

Fixpoint untilSpace (s : string) : string :=
  match s with
  | EmptyString => EmptyString
  | String c s' => if Ascii.eqb c " " then EmptyString else String c (untilSpace s')
  end.

Definition secondWord (header : string) : option string :=
  untilSpace <$> afterSpace header.

(** A string without a space. *)
Fixpoint spaceless (s : string) : bool :=
  match s with
  | EmptyString => true
  | String c s' => negb (Ascii.eqb c " ") && spaceless s'
  end.

(** [req.headers['authorization']?.split(' ')[1]], then [jwt.verify]. *)
Definition authorize `{Sessions} (env : Env) (authorization : option string)
    : Authorization :=
  match authorization ≫= secondWord with
  | None => NoToken
  | Some token =>
      if empty token then NoToken
      else match verify (now env) token with
           | Some userId => Bearer userId
           | None => InvalidToken
           end
  end.

(** *** POST /api/login *)

Definition login `{Sessions} (env : Env) (email password : string) (d : DB)
    : nat * Page :=
  if empty email || empty password
  then (400, Notice "Email and password required")
  else
    match findUserByEmail d email with
    | None => (401, Notice "Invalid credentials")
    | Some user =>
      if negb (compare password (User.password user))
      then (401, Notice "Invalid credentials")
      else (200, LoggedIn (sign (now env) (User._id user) (User.email user))
                          (User._id user) (User.name user) (User.email user))
    end.

(** *** GET /api/verify-reset-token *)

(** [ResetToken.findOne({ userId, token })] *)
Definition findResetToken (d : DB) (userId : oid) (hashedToken : string)
    : option ResetToken.t :=
  List.find (λ t, bool_decide (ResetToken.userId t = userId
                               ∧ ResetToken.token t = hashedToken))
            (resetTokens d).

Definition verifyResetToken `{Crypto} (token email : string) (d : DB)
    : nat * Page :=
  if empty token || empty email
  then (400, Notice "Token and email are required")
  else
    match findUserByEmail d email with
    | None => (400, Notice "Invalid reset link")
    | Some user =>
      let hashedToken := sha256 token in
      match findResetToken d (User._id user) hashedToken with
      | None => (400, Notice "Invalid or expired reset link")
      | Some resetToken => (200, TokenValid "Token is valid")
      end
    end.

(** *** The writes of a reset *)

(** The two writes of [resetPassword], in the order of the source:
    [user.save()] with the new hash, then [ResetToken.deleteOne]. *)
Definition resetWrites (userId : oid) (hashedPassword : string) (tokenId : oid)
    : list (DB → DB) :=
  [ with_users (fmap (λ u, if decide (User._id u = userId)
                           then User.set_password hashedPassword u else u));
    with_resetTokens (deleteOne tokenId) ].

(** The token document that [forgotPassword] stores for [user]. *)
Definition issued `{Crypto} (env : Env) (d : DB) (user : User.t) : ResetToken.t :=
  ResetToken.mk
    (fresh (ResetToken._id <$>
              filter (λ t, ResetToken.userId t ≠ User._id user) (resetTokens d)))
    (User._id user) (sha256 (randomBytes env)) (now env).

(** The store once [user] has used a link: the new hash in the account,
    and no link of the account left. *)
Definition renewed (user : User.t) (hashedPassword : string) (d : DB) : DB :=
  with_users (fmap (λ u, if decide (User._id u = User._id user)
                         then User.set_password hashedPassword u else u))
    (with_resetTokens (filter (λ t, ResetToken.userId t ≠ User._id user)) d).

(** The vehicle document that [postVehicle] builds. *)
Definition vehicleFor (var : Variant) (env : Env) (userId : oid)
    (form : VehicleForm) (files : list string) : Vehicle.t :=
  Vehicle.mk userId (f_brand form) (f_model form)
    (Parse.parseInt_string (f_year form))
    (Parse.parseFloat_string (f_price form))
    (f_type form) (f_condition form)
    (Parse.parseInt_string (f_mileage form))
    (f_description form)
    (match var with
     | Serverless => files
     | Local => (λ f, "/uploads/" +:+ f) <$> files
     end)
    (f_contactName form) (f_contactPhone form) "available" (now env).

(** *** Routes that only read *)

(** [.populate(ref, 'name email phone')] *)
Definition contact (d : DB) (id : oid) : option (oid * string * string * string) :=
  (λ u, (User._id u, User.name u, User.email u, User.phone u)) <$> findUserById d id.

(** GET /api/vehicles/:id *)
Definition getVehicle (id : oid) (d : DB) : nat * Page :=
  match vehicles d !! id with
  | None => (404, Notice "Vehicle not found")
  | Some vehicle =>
      (200, VehiclePage id vehicle (contact d (Vehicle.sellerId vehicle)))
  end.

(** [.sort({ createdAt: -1 })]: a stable insertion sort, newest first;
    documents of the same date keep the order of the collection. *)
Fixpoint insert_newest {A : Type} (createdAt : A → nat) (x : A) (l : list A)
    : list A :=
  match l with
  | [] => [x]
  | y :: l' =>
      if createdAt y <=? createdAt x then x :: l
      else y :: insert_newest createdAt x l'
  end.

Definition newest_first {A : Type} (createdAt : A → nat) (l : list A) : list A :=
  foldr (insert_newest createdAt) [] l.

(** [Booking.find({ $or: [{ buyerId }, { sellerId }] }).sort({ createdAt: -1 })] *)
Definition bookingsOf (d : DB) (userId : oid) : list Booking.t :=
  newest_first Booking.createdAt
    (filter (λ k, Booking.buyerId k = userId ∨ Booking.sellerId k = userId)
            (bookings d)).

(** GET /api/user/bookings *)
Definition getUserBookings (a : Authorization) (d : DB) : nat * Page :=
  match a with
  | NoToken => (401, Notice "Access token required")
  | InvalidToken => (403, Notice "Invalid or expired token")
  | Bearer userId =>
      (200, MyBookingsPage
              ((λ k, (k, vehicles d !! Booking.vehicleId k,
                      contact d (Booking.buyerId k),
                      contact d (Booking.sellerId k)))
                 <$> bookingsOf d userId))
  end.

(** ** The client *)

(** What a form handler of the page does with a submission. *)
Inductive Submission (A : Type) : Type :=
  | ShowLogin
  | ShowError (message : string)
  | Sent (request : A).
Arguments ShowLogin {A}.
Arguments ShowError {A} message.
Arguments Sent {A} request.

(** A picture chosen in the form. *)
Record File : Type := mkFile { file_name : string; file_size : N }.

(** handleImageSelection: the pictures kept as [selectedImages], or
    nothing when the page alerts and clears the input. *)
Definition handleImageSelection (files : list File) : option (list File) :=
  if 10 <? length files then None
  else if existsb (λ file, (5 * 1024 * 1024 <? file_size file)%N) files then None
  else Some files.

(** [limits: { fileSize }] of the server's multer. *)
Definition fileSize : N := 5000000.

(** The header that the page sends: [`Bearer ${token}`] with the item of
    localStorage, which is null when nobody is logged in. *)
Definition bearer (token : option string) : string :=
  "Bearer " +:+ default "null" token.

(** handleRegister: the checks before the request, and its body. *)
Definition handleRegister (name email phone password confirmPassword : string)
    : Submission Request :=
  if negb (String.eqb password confirmPassword)
  then ShowError "Passwords do not match"
  else if String.length password <? 8
  then ShowError "Password must be at least 8 characters"
  else Sent (PostRegister name email password phone).

(** handleSellVehicle: the checks before the request; the request carries
    the header, the fields and the pictures. *)
Definition handleSellVehicle (currentUser : bool)
    (token : option string) (form : VehicleForm) (imageFiles : list File)
    : Submission (string * VehicleForm * list File) :=
  if negb currentUser then ShowLogin
  else if empty (f_brand form) || empty (f_model form) || empty (f_year form)
          || empty (f_price form) || empty (f_type form)
          || empty (f_condition form) || empty (f_mileage form)
          || empty (f_contactName form) || empty (f_contactPhone form)
  then ShowError "Please fill all required fields"
  else if length imageFiles =? 0
  then ShowError "Please select at least one image"
  else if 10 <? length imageFiles
  then ShowError "Maximum 10 images allowed"
  else Sent (bearer token, form, imageFiles).

(** ** A small office for the scenarios *)

Module Office.

Fixpoint tally (n : nat) : string :=
  match n with
  | O => EmptyString
  | S n' => String "I" (tally n')
  end.

(** Sessions for the scenarios: a hash of [Demo.crypto] with the salt of
    [Demo.env] is compared with the password behind it, and a token is
    the id in tally marks. *)
Definition sessions : Sessions :=
  {| compare := λ password hash,
       String.eqb hash ("$2a$10$N9qo8uLOickgx2ZMRZoMye" +:+ password);
     sign := λ now userId email, "jwt." +:+ tally userId;
     verify := λ now token,
       match token with
       | String "j" (String "w" (String "t" (String "." marks))) =>
           Some (String.length marks)
       | _ => None
       end |}.

(** Dee opens an account. *)
Definition newcomer : Request :=
  PostRegister "Dee" "dee@example.com" "correct horse" "555-0104".

Definition dee : User.t :=
  User.mk 4 "Dee" "dee@example.com"
    "$2a$10$N9qo8uLOickgx2ZMRZoMyecorrect horse" "555-0104" 1000.

Definition bea : User.t :=
  User.mk 2 "Bea" "bea@example.com" "$2a$10$bidder" "555-0102" 20.

(** Bea asks for a reset link, and uses it. *)
Definition forgot : Request := PostForgotPassword "bea@example.com".

Definition reset : Request :=
  PostResetPassword "c0ffee" "bea@example.com" "battery staple".

(** A second car for sale. *)
Definition civic : VehicleForm :=
  mkVehicleForm "Honda" "Civic" "2020" "9000" "Sedan" "Used" "30000" ""
                "Sam" "555-0101".

(** Two bids on the listed car, the second above the first. *)
Definition two_bids : list (Env * Request) :=
  [ (Demo.env, PostBids (Bearer 2) (Some 7) (VStr "12000"));
    (Demo.env, PostBids (Bearer 3) (Some 7) (VNum (Fin 15000))) ].

End Office.

(** * Properties *)

(** ** The order of amounts *)

Module NumFacts.

Lemma sort_le_refl x : Num.sort_le x x = true.
Proof.
  destruct x as [| |q|]; simpl; try done.
  apply Qle_bool_iff, Qle_refl.
Qed.

Lemma sort_le_total x y : Num.sort_le x y = true ∨ Num.sort_le y x = true.
Proof.
  destruct x as [| |a|], y as [| |b|]; simpl; auto.
  rewrite !Qle_bool_iff.
  destruct (Qlt_le_dec a b) as [Hlt|Hle]; [left; by apply Qlt_le_weak | by right].
Qed.

Lemma sort_le_trans x y z :
  Num.sort_le x y = true → Num.sort_le y z = true → Num.sort_le x z = true.
Proof.
  destruct x as [| |a|], y as [| |b|], z as [| |c|]; simpl; try done.
  rewrite !Qle_bool_iff. apply Qle_trans.
Qed.

Lemma sort_le_false x y : Num.sort_le x y = false → Num.sort_le y x = true.
Proof. destruct (sort_le_total x y) as [->| ->]; done. Qed.

(** Either side NaN makes both floor comparisons of a bid false. *)
Lemma le_NaN_l y : Num.le NaN y = false.
Proof. done. Qed.

Lemma le_NaN_r x : Num.le x NaN = false.
Proof. by destruct x. Qed.

(** Away from NaN, [x > y] is the negation of [x <= y]. *)
Lemma gt_not_le x y :
  Num.isNaN x = false → Num.isNaN y = false → Num.gt x y = negb (Num.le x y).
Proof. by destruct x, y. Qed.

Lemma gt_NaN_l y : Num.gt NaN y = false.
Proof. done. Qed.

(** Above the greatest is above all: if [a <= b] fails and [c] sorts at or
    below [b], then [a <= c] fails (no NaN among [a] and [c]). *)
Lemma not_le_below a b c :
  Num.isNaN a = false → Num.isNaN c = false →
  Num.le a b = false → Num.sort_le c b = true → Num.le a c = false.
Proof.
  destruct a as [| |x|], b as [| |y|], c as [| |z|]; simpl; try done.
  intros _ _ Hxy Hzy. apply not_true_iff_false. intros Hxz.
  apply not_true_iff_false in Hxy. apply Hxy.
  rewrite Qle_bool_iff in *. by eapply Qle_trans.
Qed.

End NumFacts.

(** ** Sorted queries *)

Section Sorting.

Implicit Types (b w : Bid.t) (l : list Bid.t).

Lemma insert_desc_Permutation b l : insert_desc b l ≡ₚ b :: l.
Proof.
  induction l as [|x l IH]; simpl; [done|].
  destruct (Num.sort_le _ _); [done|].
  rewrite IH. apply Permutation_swap.
Qed.

Lemma sort_desc_Permutation l : sort_desc l ≡ₚ l.
Proof.
  induction l as [|x l IH]; simpl; [done|].
  by rewrite insert_desc_Permutation, IH.
Qed.

Lemma insert_desc_sorted b l :
  StronglySorted desc l → StronglySorted desc (insert_desc b l).
Proof.
  induction 1 as [|x l Hl IH Hx]; simpl.
  - repeat constructor.
  - destruct (Num.sort_le (Bid.amount x) (Bid.amount b)) eqn:E.
    + constructor; [by constructor|].
      constructor; [done|].
      eapply Forall_impl; [exact Hx|]. intros y Hy. unfold desc in *.
      by eapply NumFacts.sort_le_trans.
    + constructor; [done|].
      rewrite insert_desc_Permutation. constructor; [|done].
      by apply NumFacts.sort_le_false.
Qed.

Lemma sort_desc_sorted l : StronglySorted desc (sort_desc l).
Proof.
  induction l as [|x l IH]; simpl; [constructor|].
  by apply insert_desc_sorted.
Qed.

(** The head of the sorted list, computed without sorting. *)
Lemma head_insert_desc b l :
  head (insert_desc b l) =
    match head l with
    | Some x => if Num.sort_le (Bid.amount x) (Bid.amount b) then Some b else Some x
    | None => Some b
    end.
Proof. destruct l as [|x l]; simpl; [done|]. by destruct (Num.sort_le _ _). Qed.

(** The first document of the sorted query is the first document of the
    collection that none exceeds. *)
Lemma head_sort_desc_first_max l w :
  head (sort_desc l) = Some w → first_max w l.
Proof.
  revert w. induction l as [|x l IH]; intros w; simpl; [done|].
  rewrite head_insert_desc.
  destruct (head (sort_desc l)) as [y|] eqn:Hy.
  - destruct (IH y eq_refl) as (l1 & l2 & -> & H1 & H2).
    destruct (Num.sort_le (Bid.amount y) (Bid.amount x)) eqn:E; intros [= <-].
    + exists [], (l1 ++ y :: l2). split_and!; [done|constructor|].
      apply Forall_app. split.
      * eapply Forall_impl; [exact H1|]. intros b Hb. simpl in Hb.
        eapply NumFacts.sort_le_trans; [|exact E].
        by apply NumFacts.sort_le_false.
      * constructor; [done|].
        eapply Forall_impl; [exact H2|]. intros b Hb. simpl in Hb.
        by eapply NumFacts.sort_le_trans.
    + exists (x :: l1), l2. split_and!; [done| |done].
      constructor; [|done].
      destruct (Num.sort_le (Bid.amount y) (Bid.amount x)); done.
  - intros [= <-]. destruct l as [|z l].
    + exists [], []. split_and!; [done|constructor|constructor].
    + exfalso. simpl in Hy. rewrite head_insert_desc in Hy.
      destruct (head (sort_desc l)); [destruct (Num.sort_le _ _)|]; done.
Qed.

Lemma first_max_unique w w' l : first_max w l → first_max w' l → w = w'.
Proof.
  intros (l1 & l2 & -> & H1 & H2) (l1' & l2' & Heq & H1' & H2').
  assert (Hw : Num.sort_le (Bid.amount w) (Bid.amount w) = true)
    by apply NumFacts.sort_le_refl.
  assert (Hw' : Num.sort_le (Bid.amount w') (Bid.amount w') = true)
    by apply NumFacts.sort_le_refl.
  revert l1' Heq H1'. induction l1 as [|a l1 IH]; intros [|a' l1'] Heq H1'.
  - by simplify_eq/=.
  - simplify_eq/=. apply Forall_cons in H1' as [Ha _].
    apply Forall_app in H2 as [_ H2]. apply Forall_cons in H2 as [H2 _].
    congruence.
  - simplify_eq/=. apply Forall_cons in H1 as [Ha _].
    apply Forall_app in H2' as [_ H2']. apply Forall_cons in H2' as [H2' _].
    congruence.
  - simplify_eq/=. apply Forall_cons in H1 as [_ H1].
    apply Forall_cons in H1' as [_ H1']. by eapply IH.
Qed.

Lemma head_sort_desc_is_Some l : l ≠ [] → is_Some (head (sort_desc l)).
Proof.
  destruct l as [|x l]; [done|]. intros _. simpl. rewrite head_insert_desc.
  destruct (head (sort_desc l)); [destruct (Num.sort_le _ _)|]; eauto.
Qed.

Lemma first_max_head l w : first_max w l → head (sort_desc l) = Some w.
Proof.
  intros Hw. destruct (head_sort_desc_is_Some l) as [w' Hw'].
  { destruct Hw as (l1 & l2 & -> & _). by destruct l1. }
  rewrite Hw'. f_equal. eapply first_max_unique; [|done].
  by apply head_sort_desc_first_max.
Qed.

Lemma first_max_elem w l : first_max w l → w ∈ l.
Proof. intros (l1 & l2 & -> & _). set_solver. Qed.

Lemma first_max_greatest w l b :
  first_max w l → b ∈ l → Num.sort_le (Bid.amount b) (Bid.amount w) = true.
Proof.
  intros (l1 & l2 & -> & H1 & H2) Hb.
  rewrite Forall_forall in H1, H2.
  apply elem_of_app in Hb as [Hb|Hb].
  - by apply NumFacts.sort_le_false, H1.
  - apply elem_of_cons in Hb as [->|Hb]; [apply NumFacts.sort_le_refl|by apply H2].
Qed.

End Sorting.

(** ** Running a handler *)

Section Confirm.

Context `{Crypto}.
Variables (var : Variant) (env : Env) (d : DB).
Variables (userId vehicleId : oid) (vehicle : Vehicle.t) (highestBid : Bid.t).
Hypothesis Hvehicle : vehicles d !! vehicleId = Some vehicle.
Hypothesis Havailable : Vehicle.status vehicle = "available".
Hypothesis Hseller : Vehicle.sellerId vehicle = userId.
Hypothesis Hhighest : highestPending d vehicleId = Some highestBid.

(** A confirmation that passes its guards applies its four writes one
    after the other until one throws. *)
Lemma confirmBooking_run :
  let booking := bookingFor env d vehicleId vehicle highestBid in
  let k := completed (budget env) 4 in
  serve var env (PostBookings (Bearer userId) (Some vehicleId)) d =
    ( (if decide (k = 4)
       then mkResponse 201 (MessageBooking "Booking confirmed" booking)
       else mkResponse 500 (Message "Server error")),
      applyWrites (take k (confirmWrites booking vehicleId (Bid._id highestBid))) d,
      (if decide (k = 4)
       then match var with
            | Local => [BookingConfirmed vehicleId (Booking._id booking)]
            | Serverless => []
            end
       else []) ).
Proof.
  intros booking k. subst k booking. run_handler. unfold bookingFor, completed.
  rewrite Hvehicle, Havailable, Hseller, Hhighest.
  rewrite !bool_decide_eq_false_2 by (intros ?; done).
  destruct (budget env) as [[|[|[|[|n]]]]|], var; simpl; try done.
  all: rewrite ?Nat.min_0_r; simpl; by destruct d.
Qed.

End Confirm.

(** ** Settling the bids of a sold vehicle *)

Section Settle.

Variables (vehicleId : oid) (w : Bid.t).
Hypothesis Hw_vehicle : Bid.vehicleId w = vehicleId.
Hypothesis Hw_pending : Bid.status w = "pending".

Implicit Types (b : Bid.t) (l : list Bid.t).

Lemma accept_then_reject l :
  (λ b, if decide (Bid.vehicleId b = vehicleId ∧ Bid._id b ≠ Bid._id w
                   ∧ Bid.status b = "pending")
        then Bid.set_status "rejected" b else b)
    <$> ((λ b, if decide (Bid._id b = Bid._id w)
               then Bid.set_status "accepted" b else b) <$> l)
  = settle vehicleId (Bid._id w) <$> l.
Proof.
  rewrite <-list_fmap_compose. apply list_fmap_ext. intros _ b _.
  unfold settle; simpl.
  repeat case_decide; simpl in *; destruct_and?; try done; tauto.
Qed.






End Settle.



(** ** confirmBooking *)

Section ConfirmBooking.

Context `{Crypto}.
Implicit Types (var : Variant) (env : Env) (d : DB).

Lemma highestPending_None d vehicleId :
  pending d vehicleId = [] → highestPending d vehicleId = None.
Proof. unfold highestPending. by intros ->. Qed.

Lemma highestPending_first_max d vehicleId w :
  highestPending d vehicleId = Some w ↔ first_max w (pending d vehicleId).
Proof.
  split; [apply head_sort_desc_first_max | apply first_max_head].
Qed.

Lemma pending_elem d vehicleId b :
  b ∈ pending d vehicleId ↔
    b ∈ bids d ∧ Bid.vehicleId b = vehicleId ∧ Bid.status b = "pending".
Proof. unfold pending. rewrite list_elem_of_filter. tauto. Qed.

Lemma confirmBooking_refused var env d userId vehicleId r :
  Refused d userId vehicleId r →
  serve var env (PostBookings (Bearer userId) vehicleId) d = (r, d, []).
Proof.
  intros [|vid Hv|vid v Hv Hs|vid v Hv Hs Hu|vid v Hv Hs Hu Hp]; run_handler.
  - done.
  - by rewrite Hv.
  - rewrite Hv. by rewrite bool_decide_eq_true_2.
  - rewrite Hv, bool_decide_eq_false_2 by (by intros ?).
    by rewrite bool_decide_eq_true_2.
  - rewrite Hv, !bool_decide_eq_false_2 by (by intros ?).
    by rewrite highestPending_None.
Qed.

(** C6. Whenever confirmBooking is refused (the vehicle does not exist,
    it is not available, the caller is not its seller, or it has no
    pending bid) the response is the matching 404, 400 or 403 and the
    store is left exactly as it was: no booking is created, no vehicle
    and no bid changes, and nothing is broadcast. *)
Theorem confirmBooking_refused_no_mutation var env d userId vehicleId r :
  Refused d userId vehicleId r →
  let req := PostBookings (Bearer userId) vehicleId in
  serve var env req d = (r, d, [])
  ∧ (code r = 404 ∨ code r = 400 ∨ code r = 403)
  ∧ bookings (store var env req d) = bookings d
  ∧ vehicles (store var env req d) = vehicles d
  ∧ bids (store var env req d) = bids d.
Proof.
  intros Hr req. unfold store, req.
  rewrite (confirmBooking_refused var env d userId vehicleId r Hr).
  split_and!; try done. destruct Hr; simpl; auto.
Qed.

End ConfirmBooking.

(** ** The writes of a confirmation are not a transaction *)

Section Atomicity.

Context `{Crypto}.

(** C2, as amended. A confirmation that passes its guards applies its
    four writes (booking, vehicle, winning bid, other bids) as four
    separate writes in this order. When all go through the response is
    201 and all four are visible; when a write throws the response is
    500 and exactly the writes before it stay visible. *)
Theorem confirmBooking_writes_in_order var env d userId vehicleId vehicle highestBid :
  vehicles d !! vehicleId = Some vehicle →
  Vehicle.status vehicle = "available" →
  Vehicle.sellerId vehicle = userId →
  highestPending d vehicleId = Some highestBid →
  let req := PostBookings (Bearer userId) (Some vehicleId) in
  let booking := bookingFor env d vehicleId vehicle highestBid in
  let writes := confirmWrites booking vehicleId (Bid._id highestBid) in
  let k := completed (budget env) 4 in
  store var env req d = applyWrites (take k writes) d
  ∧ (k = 4 → response var env req d
             = mkResponse 201 (MessageBooking "Booking confirmed" booking))
  ∧ (k < 4 → response var env req d = mkResponse 500 (Message "Server error")).
Proof.
  intros Hv Hs Hu Hh req booking writes k. unfold store, response, req.
  rewrite (confirmBooking_run var env d userId vehicleId vehicle highestBid)
    by done.
  fold booking writes k. simpl. split_and!; [done| |].
  - intros Hk. by rewrite decide_True.
  - intros Hk. rewrite decide_False by lia. done.
Qed.

End Atomicity.

(** ** placeBid *)

Section PlaceBid.

Context `{Crypto}.
Implicit Types (var : Variant) (env : Env) (d : DB) (amount : jsval).

(** A bid on an available vehicle by someone else than its seller, with
    an amount present: the two floor checks, then one write. *)
Lemma placeBid_run var env d userId vehicleId vehicle amount :
  vehicles d !! vehicleId = Some vehicle →
  Vehicle.status vehicle = "available" →
  Vehicle.sellerId vehicle ≠ userId →
  truthy amount = true →
  serve var env (PostBids (Bearer userId) (Some vehicleId) amount) d =
    if Num.le (parseFloat amount) (Vehicle.price vehicle)
    then (mkResponse 400 (Message "Bid must be higher than current price"), d, [])
    else if match highestPending d vehicleId with
            | Some highestBid => Num.le (parseFloat amount) (Bid.amount highestBid)
            | None => false
            end
    then (mkResponse 400 (Message "Bid must be higher than current highest bid"), d, [])
    else
      match budget env with
      | Some 0 => (mkResponse 500 (Message "Server error"), d, [])
      | _ =>
        let bid := bidFor env d vehicleId userId amount in
        (mkResponse 201 (MessageBid "Bid placed successfully" bid),
         with_bids (λ l, l ++ [bid]) d,
         match var with
         | Local => [NewBid vehicleId (parseFloat amount)]
         | Serverless => []
         end)
      end.
Proof.
  intros Hv Hs Hu Ht. run_handler. rewrite Ht. simpl. rewrite Hv, Hs.
  rewrite bool_decide_eq_false_2 by (by intros ?).
  rewrite bool_decide_eq_false_2 by done.
  destruct (Num.le (parseFloat amount) (Vehicle.price vehicle)); [done|].
  destruct (match highestPending d vehicleId with Some _ => _ | None => _ end);
    [done|].
  by destruct (budget env) as [[|k]|], var.
Qed.


(** The floor, away from NaN: the bid is inserted if and only if its
    amount is greater than the price and than every pending amount; it
    is refused with 400 and nothing changes otherwise. *)
Lemma placeBid_floor var env d userId vehicleId vehicle amount :
  budget env ≠ Some 0 →
  vehicles d !! vehicleId = Some vehicle →
  Vehicle.status vehicle = "available" →
  Vehicle.sellerId vehicle ≠ userId →
  truthy amount = true →
  Num.isNaN (parseFloat amount) = false →
  Num.isNaN (Vehicle.price vehicle) = false →
  (∀ b, b ∈ pending d vehicleId → Num.isNaN (Bid.amount b) = false) →
  let req := PostBids (Bearer userId) (Some vehicleId) amount in
  let above :=
    Num.gt (parseFloat amount) (Vehicle.price vehicle) = true
    ∧ ∀ b, b ∈ pending d vehicleId →
           Num.gt (parseFloat amount) (Bid.amount b) = true in
  (above →
     response var env req d
       = mkResponse 201 (MessageBid "Bid placed successfully"
                                    (bidFor env d vehicleId userId amount))
     ∧ store var env req d
       = with_bids (λ l, l ++ [bidFor env d vehicleId userId amount]) d)
  ∧ (¬ above → code (response var env req d) = 400 ∧ store var env req d = d).
Proof.
  intros Hb Hv Hs Hu Ht Ha Hp Hbids req above. unfold response, store, req.
  rewrite (placeBid_run var env d userId vehicleId vehicle amount) by done.
  subst above. rewrite NumFacts.gt_not_le by done.
  destruct (Num.le (parseFloat amount) (Vehicle.price vehicle)) eqn:Eprice.
  { split; [by intros [? _]|done]. }
  destruct (highestPending d vehicleId) as [h|] eqn:Eh.
  - apply highestPending_first_max in Eh.
    pose proof (first_max_elem _ _ Eh) as Hh.
    destruct (Num.le (parseFloat amount) (Bid.amount h)) eqn:Ebid.
    + split; [|done]. intros [_ Hall]. specialize (Hall h Hh).
      rewrite NumFacts.gt_not_le, Ebid in Hall by auto. done.
    + split.
      * intros _. by destruct (budget env) as [[|k]|].
      * intros []. split; [done|]. intros b Hb'.
        rewrite NumFacts.gt_not_le by auto. apply negb_true_iff.
        eapply NumFacts.not_le_below; [done|by auto|exact Ebid|].
        by eapply first_max_greatest.
  - split.
    + intros _. by destruct (budget env) as [[|k]|].
    + intros []. split; [done|]. intros b Hb'. exfalso.
      unfold highestPending in Eh.
      destruct (head_sort_desc_is_Some (pending d vehicleId)) as [? ?];
        [|congruence].
      intros E. rewrite E in Hb'. by apply elem_of_nil in Hb'.
Qed.

(** A bid by the seller of the vehicle. *)
Lemma placeBid_by_seller_run var env d vehicleId vehicle amount :
  vehicles d !! vehicleId = Some vehicle →
  serve var env (PostBids (Bearer (Vehicle.sellerId vehicle)) (Some vehicleId) amount) d
  = (mkResponse 400 (Message
       (if truthy amount
        then if bool_decide (Vehicle.status vehicle ≠ "available")
             then "Vehicle is no longer available"
             else "You cannot bid on your own vehicle"
        else "Vehicle ID and amount required")), d, []).
Proof.
  intros Hv. run_handler. destruct (truthy amount); simpl; [|done].
  rewrite Hv. case_bool_decide; [done|].
  by rewrite bool_decide_eq_true_2.
Qed.

(** C5, as amended. placeBid called with the vehicle's own seller as the
    bidder always fails, whatever the amount, with HTTP status 400 (not
    403) and leaves the store as it was; on an available vehicle with an
    amount present the message is "You cannot bid on your own vehicle". *)
Theorem placeBid_by_seller_rejected var env d vehicleId vehicle amount :
  vehicles d !! vehicleId = Some vehicle →
  ∃ message,
    serve var env
          (PostBids (Bearer (Vehicle.sellerId vehicle)) (Some vehicleId) amount) d
      = (mkResponse 400 (Message message), d, [])
    ∧ (truthy amount = true → Vehicle.status vehicle = "available" →
       message = "You cannot bid on your own vehicle").
Proof.
  intros Hv. eexists. split; [by apply placeBid_by_seller_run|].
  intros -> Hs. by rewrite bool_decide_eq_false_2 by (by intros ?).
Qed.

(** A bid on a vehicle that is not available. *)
Lemma placeBid_unavailable var env d userId vehicleId vehicle amount :
  vehicles d !! vehicleId = Some vehicle →
  Vehicle.status vehicle ≠ "available" →
  truthy amount = true →
  serve var env (PostBids (Bearer userId) (Some vehicleId) amount) d
  = (mkResponse 400 (Message "Vehicle is no longer available"), d, []).
Proof.
  intros Hv Hs Ht. run_handler. rewrite Ht. simpl. rewrite Hv.
  by rewrite bool_decide_eq_true_2.
Qed.

End PlaceBid.

(** ** listBids *)

Section ListBids.

Context `{Crypto}.

Lemma bid_populate d (l : list Bid.t) : bid <$> (populate d <$> l) = l.
Proof. rewrite <-list_fmap_compose. by rewrite <-(list_fmap_id l) at 2. Qed.

(** C7. For every vehicle, listBids answers 200 with exactly the bids of
    that vehicle whose status is pending (so no accepted or rejected
    bid), sorted by amount, largest first, and leaves the store as it
    was. *)
Theorem listBids_pending_sorted var env id d :
  ∃ views,
    serve var env (GetBids id) d = (mkResponse 200 (BidList views), d, [])
    ∧ bid <$> views ≡ₚ pending d id
    ∧ (∀ b, b ∈ bid <$> views ↔
            b ∈ bids d ∧ Bid.vehicleId b = id ∧ Bid.status b = "pending")
    ∧ StronglySorted desc (bid <$> views)
    ∧ Forall (λ v, bidder v =
                (λ u, (User._id u, User.name u, User.email u))
                  <$> findUserById d (Bid.userId (bid v))) views.
Proof.
  exists (populate d <$> sort_desc (pending d id)).
  rewrite bid_populate. split_and!.
  - done.
  - apply sort_desc_Permutation.
  - intros b. rewrite sort_desc_Permutation. apply pending_elem.
  - apply sort_desc_sorted.
  - apply Forall_fmap, Forall_true. done.
Qed.

End ListBids.

(** ** Ties *)

Section Ties.

Context `{Crypto}.





End Ties.

(** ** The life of a vehicle *)

Section Lifecycle.

Context `{Crypto}.
Implicit Types (var : Variant) (env : Env) (d : DB) (req : Request).

(** The guards of a confirmation either refuse it or name a winner. *)
Lemma confirm_guards d userId vehicleId :
  (∃ r, Refused d userId vehicleId r)
  ∨ (∃ vid vehicle w,
       vehicleId = Some vid
       ∧ vehicles d !! vid = Some vehicle
       ∧ Vehicle.status vehicle = "available"
       ∧ Vehicle.sellerId vehicle = userId
       ∧ highestPending d vid = Some w).
Proof.
  destruct vehicleId as [vid|]; [|left; eexists; constructor].
  destruct (vehicles d !! vid) as [vehicle|] eqn:Hv;
    [|left; eexists; by apply refused_not_found].
  destruct (decide (Vehicle.status vehicle = "available")) as [Hs|Hs];
    [|left; eexists; by eapply refused_not_available].
  destruct (decide (Vehicle.sellerId vehicle = userId)) as [Hu|Hu];
    [|left; eexists; by eapply refused_not_seller].
  destruct (highestPending d vid) as [w|] eqn:Hw.
  - right. by exists vid, vehicle, w.
  - left. eexists. eapply refused_no_bids; [done..|].
    destruct (pending d vid) as [|x l] eqn:E; [done|].
    destruct (head_sort_desc_is_Some (x :: l)) as [? Hsome]; [done|].
    unfold highestPending in Hw. rewrite E in Hw. congruence.
Qed.

Lemma vehicles_confirmWrites booking vehicleId bidId k d :
  vehicles (applyWrites (take k (confirmWrites booking vehicleId bidId)) d)
  = if decide (2 ≤ k)
    then alter (Vehicle.set_status "sold") vehicleId (vehicles d)
    else vehicles d.
Proof. by destruct k as [|[|[|[|[|k]]]]]. Qed.

Lemma bids_confirmWrites booking vehicleId bidId k d :
  Bid._id <$> bids (applyWrites (take k (confirmWrites booking vehicleId bidId)) d)
  = Bid._id <$> bids d.
Proof.
  destruct k as [|[|[|[|[|k]]]]]; simpl; try done;
    rewrite <-?list_fmap_compose; apply list_fmap_ext; intros _ b _; simpl;
    by repeat case_decide.
Qed.

(** What one request does to the vehicles: nothing, or a new vehicle is
    listed as available, or the seller's confirmation marks one sold. *)
Lemma serve_vehicles var env req d :
  vehicles (store var env req d) = vehicles d
  ∨ (∃ userId form files vehicle,
       req = PostVehicles (Bearer userId) form files
       ∧ Vehicle.status vehicle = "available"
       ∧ vehicles (store var env req d)
         = <[fresh (dom (vehicles d)) := vehicle]> (vehicles d))
  ∨ (∃ vehicleId vehicle,
       req = PostBookings (Bearer (Vehicle.sellerId vehicle)) (Some vehicleId)
       ∧ vehicles d !! vehicleId = Some vehicle
       ∧ Vehicle.status vehicle = "available"
       ∧ vehicles (store var env req d)
         = alter (Vehicle.set_status "sold") vehicleId (vehicles d)
       ∧ (budget env = None → code (response var env req d) = 201)).
Proof.
  destruct req as [name email password phone|token email newPassword
                  |a form files|a vehicleId amount|id|a vehicleId|email].
  - left. run_handler. repeat case_match; by simplify_eq/=.
  - left. run_handler. repeat case_match; by simplify_eq/=.
  - destruct a as [| |userId]; [by left..|].
    run_handler. repeat case_match; simplify_eq/=; try by left.
    all: right; left; eexists _, _, _, _; split_and!; [done| |done]; done.
  - left. destruct a as [| |userId]; [done..|].
    run_handler. repeat case_match; by simplify_eq/=.
  - by left.
  - destruct a as [| |userId]; [by left..|].
    destruct (confirm_guards d userId vehicleId)
      as [[r Hr]|(vid & vehicle & w & -> & Hv & Hs & Hu & Hw)].
    + left. unfold store.
      by rewrite (confirmBooking_refused var env d userId vehicleId r).
    + unfold store, response.
      rewrite (confirmBooking_run var env d userId vid vehicle w) by done.
      simpl. rewrite vehicles_confirmWrites. case_decide as Hk; [|by left].
      right; right. exists vid, vehicle. subst userId. split_and!; try done.
      intros ->. done.
  - left. run_handler. repeat case_match; by simplify_eq/=.
Qed.

(** One request and one vehicle: the vehicle stays, and its status is
    kept unless the request is its seller's confirmation, which takes it
    from available to sold. *)
Lemma serve_vehicle_status var env req d vehicleId vehicle :
  vehicles d !! vehicleId = Some vehicle →
  ∃ vehicle',
    vehicles (store var env req d) !! vehicleId = Some vehicle'
    ∧ (Vehicle.status vehicle' = Vehicle.status vehicle
       ∨ (Vehicle.status vehicle = "available"
          ∧ Vehicle.status vehicle' = "sold"
          ∧ req = PostBookings (Bearer (Vehicle.sellerId vehicle)) (Some vehicleId)
          ∧ (budget env = None → code (response var env req d) = 201))).
Proof.
  intros Hv.
  destruct (serve_vehicles var env req d)
    as [->|[(u & form & files & v & -> & Hs & ->)
           |(vid & v & -> & Hvid & Hs & -> & Hcode)]].
  - exists vehicle. by split; [|left].
  - exists vehicle. split; [|by left]. rewrite lookup_insert_ne; [done|].
    intros Heq. apply (is_fresh (dom (vehicles d))). rewrite Heq.
    by apply elem_of_dom.
  - destruct (decide (vid = vehicleId)) as [->|Hne].
    + rewrite lookup_alter_eq, Hv. simplify_eq. eexists. split; [done|].
      right. by split_and!.
    + rewrite lookup_alter_ne by done. exists vehicle. by split; [|left].
Qed.



End Lifecycle.

(** ** Distinct bid ids *)

Section BidIds.

Context `{Crypto}.

(** One request keeps the ids of the bids, or appends a bid with a
    fresh id. *)
Lemma serve_bid_ids var env req d :
  Bid._id <$> bids (store var env req d) = Bid._id <$> bids d
  ∨ Bid._id <$> bids (store var env req d)
    = (Bid._id <$> bids d) ++ [fresh (Bid._id <$> bids d)].
Proof.
  destruct req as [name email password phone|token email newPassword
                  |a form files|a vehicleId amount|id|a vehicleId|email].
  - left. run_handler. repeat case_match; by simplify_eq/=.
  - left. run_handler. repeat case_match; by simplify_eq/=.
  - left. destruct a as [| |userId]; [done..|].
    run_handler. repeat case_match; by simplify_eq/=.
  - destruct a as [| |userId]; [by left..|].
    run_handler. repeat case_match; simplify_eq/=; try by left.
    all: right; by rewrite fmap_app.
  - by left.
  - left. destruct a as [| |userId]; [done..|].
    destruct (confirm_guards d userId vehicleId)
      as [[r Hr]|(vid & vehicle & w & -> & Hv & Hs & Hu & Hw)].
    + unfold store. by rewrite (confirmBooking_refused var env d userId vehicleId r).
    + unfold store.
      rewrite (confirmBooking_run var env d userId vid vehicle w) by done.
      apply bids_confirmWrites.
  - left. run_handler. repeat case_match; by simplify_eq/=.
Qed.

Lemma unique_bid_ids_serve var env req d :
  unique_bid_ids d → unique_bid_ids (store var env req d).
Proof.
  unfold unique_bid_ids. intros Hd.
  destruct (serve_bid_ids var env req d) as [->| ->]; [done|].
  apply NoDup_app. split_and!; [done| |apply NoDup_singleton].
  intros x Hx ->%list_elem_of_singleton. by apply infinite_is_fresh in Hx.
Qed.

(** Every store reached from the empty one has distinct bid ids. *)
Lemma unique_bid_ids_run var reqs d :
  unique_bid_ids d → unique_bid_ids (run var reqs d).
Proof.
  revert d. induction reqs as [|[env req] reqs IH]; intros d Hd; [done|].
  simpl. by apply IH, unique_bid_ids_serve.
Qed.

Lemma unique_bid_ids_empty : unique_bid_ids emptyDB.
Proof. apply NoDup_nil_2. Qed.

End BidIds.

(** ** The invariant of the store *)

Section Invariant.

Context `{Crypto}.
Implicit Types (var : Variant) (env : Env) (d : DB) (req : Request).

(** What one request does to the vehicles and the bids together. *)
Lemma serve_market var env req d :
  (vehicles (store var env req d) = vehicles d
   ∧ bids (store var env req d) = bids d)
  ∨ (∃ vehicle,
       vehicles (store var env req d)
         = <[fresh (dom (vehicles d)) := vehicle]> (vehicles d)
       ∧ bids (store var env req d) = bids d)
  ∨ (∃ b,
       vehicles (store var env req d) = vehicles d
       ∧ bids (store var env req d) = bids d ++ [b]
       ∧ Bid.status b = "pending")
  ∨ (∃ vehicleId vehicle w booking k,
       vehicles d !! vehicleId = Some vehicle
       ∧ highestPending d vehicleId = Some w
       ∧ store var env req d
         = applyWrites (take k (confirmWrites booking vehicleId (Bid._id w))) d).
Proof.
  destruct req as [name email password phone|token email newPassword
                  |a form files|a vehicleId amount|id|a vehicleId|email].
  - left. run_handler. repeat case_match; by simplify_eq/=.
  - left. run_handler. repeat case_match; by simplify_eq/=.
  - destruct a as [| |userId]; [by left..|].
    run_handler. repeat case_match; simplify_eq/=; try by left.
    all: right; left; by eexists.
  - destruct a as [| |userId]; [by left..|].
    run_handler. repeat case_match; simplify_eq/=; try by left.
    all: right; right; left; by eexists.
  - by left.
  - destruct a as [| |userId]; [by left..|].
    destruct (confirm_guards d userId vehicleId)
      as [[r Hr]|(vid & vehicle & w & -> & Hv & Hs & Hu & Hw)].
    + left. unfold store.
      by rewrite (confirmBooking_refused var env d userId vehicleId r).
    + right; right; right. unfold store.
      rewrite (confirmBooking_run var env d userId vid vehicle w) by done.
      by eexists vid, vehicle, w, _, _.
  - left. run_handler. repeat case_match; by simplify_eq/=.
Qed.

Lemma unique_id_eq (l : list Bid.t) b w :
  NoDup (Bid._id <$> l) → b ∈ l → w ∈ l → Bid._id b = Bid._id w → b = w.
Proof.
  induction l as [|x l IH]; [by intros _ ?%elem_of_nil|].
  rewrite fmap_cons, NoDup_cons. intros [Hx Hl] Hb Hw Heq.
  apply elem_of_cons in Hb as [->|Hb], Hw as [->|Hw]; [done| | |by apply IH].
  - destruct Hx. rewrite Heq. by apply list_elem_of_fmap_2.
  - destruct Hx. rewrite <-Heq. by apply list_elem_of_fmap_2.
Qed.

Lemma sold_stays_unavailable (vs : gmap oid Vehicle.t) vehicleId i vehicle :
  vs !! i = Some vehicle →
  Vehicle.status vehicle ≠ "available" →
  ∃ vehicle', alter (Vehicle.set_status "sold") vehicleId vs !! i = Some vehicle'
              ∧ Vehicle.status vehicle' ≠ "available".
Proof.
  intros Hi Hs. destruct (decide (vehicleId = i)) as [->|Hne].
  - rewrite lookup_alter_eq, Hi. by eexists.
  - rewrite lookup_alter_ne by done. by eexists.
Qed.

Lemma settled_confirmWrites booking vehicleId w k d :
  bids (applyWrites (take k (confirmWrites booking vehicleId (Bid._id w))) d)
  = if decide (4 ≤ k) then settle vehicleId (Bid._id w) <$> bids d
    else if decide (k = 3)
    then (λ b, if decide (Bid._id b = Bid._id w)
               then Bid.set_status "accepted" b else b) <$> bids d
    else bids d.
Proof.
  destruct k as [|[|[|[|[|k]]]]]; try done;
    rewrite decide_True by lia;
    exact (accept_then_reject vehicleId w (bids d)).
Qed.

Lemma open_bids_pending_confirmWrites d vehicleId vehicle w booking k :
  consistent d →
  vehicles d !! vehicleId = Some vehicle →
  highestPending d vehicleId = Some w →
  open_bids_pending
    (applyWrites (take k (confirmWrites booking vehicleId (Bid._id w))) d).
Proof.
  intros [Hids Hopen] Hv Hw.
  apply highestPending_first_max, first_max_elem, pending_elem in Hw
    as (Hwl & Hwv & Hwp).
  assert (∃ vehicle',
            alter (Vehicle.set_status "sold") vehicleId (vehicles d) !! vehicleId
              = Some vehicle' ∧ Vehicle.status vehicle' ≠ "available") as Hsold.
  { rewrite lookup_alter_eq, Hv. by eexists. }
  assert (∀ b, b ∈ bids d → Bid.status b ≠ "pending" →
            ∃ vehicle',
              alter (Vehicle.set_status "sold") vehicleId (vehicles d)
                !! Bid.vehicleId b = Some vehicle'
              ∧ Vehicle.status vehicle' ≠ "available") as Hkept.
  { intros b Hb Hs. destruct (Hopen b Hb Hs) as (v & ? & ?).
    by eapply sold_stays_unavailable. }
  intros b'. rewrite vehicles_confirmWrites, settled_confirmWrites.
  intros Hb' Hs'. destruct (decide (4 ≤ k)) as [Hk|Hk].
  - rewrite decide_True by lia.
    apply list_elem_of_fmap in Hb' as (b & -> & Hb). unfold settle in *.
    case_decide as Hid; simpl in *.
    + by rewrite (unique_id_eq _ b w Hids Hb Hwl Hid), Hwv.
    + case_decide as Hp; simpl in *; [|by apply Hkept].
      destruct Hp as [-> _]. done.
  - destruct (decide (k = 3)) as [->|Hk3].
    + rewrite decide_True by lia.
      apply list_elem_of_fmap in Hb' as (b & -> & Hb).
      case_decide as Hid; simpl in *; [|by apply Hkept].
      by rewrite (unique_id_eq _ b w Hids Hb Hwl Hid), Hwv.
    + case_decide; [by apply Hkept|by apply Hopen].
Qed.

Lemma consistent_serve var env req d :
  consistent d → consistent (store var env req d).
Proof.
  intros Hd. split; [by apply unique_bid_ids_serve, Hd|].
  destruct Hd as [Hids Hopen].
  destruct (serve_market var env req d)
    as [[Hv Hb]|[(v & Hv & Hb)|[(b & Hv & Hb & Hs)
       |(vid & v & w & bk & k & Hv & Hw & ->)]]].
  - intros b. rewrite Hv, Hb. apply Hopen.
  - intros b. rewrite Hv, Hb. intros Hin Hs.
    destruct (Hopen b Hin Hs) as (v0 & Hv0 & ?). exists v0. split; [|done].
    rewrite lookup_insert_ne; [done|]. intros Heq.
    apply (is_fresh (dom (vehicles d))). rewrite Heq. by apply elem_of_dom.
  - intros b'. rewrite Hv, Hb. intros Hin Hs'.
    apply elem_of_app in Hin as [Hin|Hin%list_elem_of_singleton];
      [by apply Hopen|congruence].
  - by eapply open_bids_pending_confirmWrites.
Qed.

(** Every store reached from a consistent one, the empty one for
    instance, is consistent, whatever fails on the way. *)
Lemma consistent_run var reqs d : consistent d → consistent (run var reqs d).
Proof.
  revert d. induction reqs as [|[env req] reqs IH]; intros d Hd; [done|].
  simpl. by apply IH, consistent_serve.
Qed.

Lemma consistent_empty : consistent emptyDB.
Proof. split; [apply NoDup_nil_2|]. by intros b ?%elem_of_nil. Qed.


End Invariant.

(** ** The effect of a confirmation *)

Section Effect.

Context `{Crypto}.


End Effect.

(** ** forgotPassword *)

Section ForgotPassword.

Context `{Crypto}.

(** The serverless API answers the acknowledgement and nothing else,
    whether or not an account has the address (no fault). *)
Lemma forgotPassword_serverless_acknowledges env d email :
  budget env = None → email ≠ "" →
  response Serverless env (PostForgotPassword email) d
  = mkResponse 200 (Message acknowledgement).
Proof.
  intros Hb Hne. run_handler. unfold empty.
  rewrite (proj2 (String.eqb_neq email "")) by done. simpl.
  destruct (findUserByEmail d email); [|done]. by rewrite Hb.
Qed.

(** The local server adds the reset link and the raw token to the
    acknowledgement when an account has the address. *)
Lemma forgotPassword_local_discloses env d email user :
  budget env = None → email ≠ "" →
  findUserByEmail d email = Some user →
  response Local env (PostForgotPassword email) d
  = mkResponse 200
      (MessageReset acknowledgement
         ("http://localhost:5500" +:+ "/frontend/pages/reset-password.html?token="
            +:+ randomBytes env +:+ "&email=" +:+ email)
         (randomBytes env)).
Proof.
  intros Hb Hne Hu. run_handler. unfold empty.
  rewrite (proj2 (String.eqb_neq email "")) by done. simpl.
  rewrite Hu. by rewrite Hb.
Qed.

(** Only the hash of the token is stored. *)
Lemma forgotPassword_stores_hash var env d email user :
  budget env = None → email ≠ "" →
  findUserByEmail d email = Some user →
  ∃ id, resetTokens (store var env (PostForgotPassword email) d)
        = filter (λ t, ResetToken.userId t ≠ User._id user) (resetTokens d)
          ++ [ResetToken.mk id (User._id user) (sha256 (randomBytes env)) (now env)].
Proof.
  intros Hb Hne Hu. run_handler. unfold empty.
  rewrite (proj2 (String.eqb_neq email "")) by done. simpl.
  rewrite Hu, Hb. destruct var; simpl; by eexists.
Qed.

End ForgotPassword.

(** ** Scenarios on the small marketplace *)

Section Scenarios.

Local Existing Instance Demo.crypto.

(** Scenario A: price 10000, no bids; 10000 is refused, 10001 is taken. *)
Example scenario_A_equal_refused :
  serve Serverless Demo.env (PostBids (Bearer 2) (Some 7) (VStr "10000")) Demo.listed
  = (mkResponse 400 (Message "Bid must be higher than current price"),
     Demo.listed, []).
Proof. vm_compute. reflexivity. Qed.

Example scenario_A_above_accepted :
  response Serverless Demo.env (PostBids (Bearer 2) (Some 7) (VStr "10001")) Demo.listed
  = mkResponse 201 (MessageBid "Bid placed successfully"
                               (Bid.mk 0 7 2 (Fin 10001) "pending" 1000)).
Proof. vm_compute. reflexivity. Qed.

(** A bid equal to the highest pending bid is refused. *)
Example equal_to_highest_refused :
  serve Serverless Demo.env (PostBids (Bearer 2) (Some 7) (VNum (Fin 15000))) Demo.bidding
  = (mkResponse 400 (Message "Bid must be higher than current highest bid"),
     Demo.bidding, []).
Proof. vm_compute. reflexivity. Qed.

(** Scenario B: bids of 12000 and 15000 pending; the seller confirms. *)
Example scenario_B :
  serve Local Demo.env Demo.confirm Demo.bidding
  = (mkResponse 201 (MessageBooking "Booking confirmed"
                       (Booking.mk 0 7 3 1 1 (Fin 15000) "confirmed" 1000)),
     Demo.sold, [BookingConfirmed 7 0]).
Proof. vm_compute. reflexivity. Qed.

(** Scenario C: a bid on the sold car. *)
Example scenario_C :
  serve Local Demo.env (PostBids (Bearer 2) (Some 7) (VStr "20000")) Demo.sold
  = (mkResponse 400 (Message "Vehicle is no longer available"), Demo.sold, []).
Proof. vm_compute. reflexivity. Qed.

(** Scenario D: someone else than the seller confirms. *)
Example scenario_D :
  serve Local Demo.env (PostBookings (Bearer 2) (Some 7)) Demo.bidding
  = (mkResponse 403 (Message "Only seller can confirm booking"),
     Demo.bidding, []).
Proof. vm_compute. reflexivity. Qed.

(** Scenario E: the seller confirms with no bid pending. *)
Example scenario_E :
  serve Local Demo.env Demo.confirm Demo.listed
  = (mkResponse 400 (Message "No bids available"), Demo.listed, []).
Proof. vm_compute. reflexivity. Qed.

(** An account is registered, asks for a reset link and sets a new
    password with the token of the mail. *)
Example account_round_trip :
  let registered :=
    store Serverless Demo.env
      (PostRegister "Dee" "dee@example.com" "correct horse" "555-0104") emptyDB in
  let asked :=
    serve Serverless Demo.env (PostForgotPassword "dee@example.com") registered in
  let changed :=
    serve Serverless Demo.env
      (PostResetPassword "c0ffee" "dee@example.com" "battery staple") asked.1.2 in
  asked.2
    = [ResetMail "dee@example.com"
         "https://your-frontend-domain.vercel.app/frontend/pages/reset-password.html?token=c0ffee&email=dee@example.com"]
  ∧ ResetToken.token <$> resetTokens asked.1.2 = ["sha256:c0ffee"]
  ∧ code changed.1.1 = 200
  ∧ resetTokens changed.1.2 = []
  ∧ User.password <$> users changed.1.2
    = ["$2a$10$N9qo8uLOickgx2ZMRZoMyebattery staple"].
Proof. vm_compute. repeat split. Qed.

(** A vehicle is posted on the local server. *)
Example post_vehicle :
  serve Local Demo.env
    (PostVehicles (Bearer 1)
       (mkVehicleForm "Honda" "Civic" "2020" "8500.50" "Sedan" "Used" "30000km"
                      "" "Sam" "555-0101") ["civic.png"]) Demo.listed
  = (mkResponse 201
       (MessageVehicle "Vehicle posted successfully" 8
          (Vehicle.mk 1 "Honda" "Civic" (Fin 2020) (Fin (17001 # 2)) "Sedan"
             "Used" (Fin 30000) "" ["/uploads/civic.png"] "Sam" "555-0101"
             "available" 1000)),
     with_vehicles
       (insert 8
          (Vehicle.mk 1 "Honda" "Civic" (Fin 2020) (Fin (17001 # 2)) "Sedan"
             "Used" (Fin 30000) "" ["/uploads/civic.png"] "Sam" "555-0101"
             "available" 1000)) Demo.listed,
     [NewVehicle 8]).
Proof. vm_compute. reflexivity. Qed.

(** The head of the sorted bids of a listing with one NaN bid. *)
Example NaN_sorts_last :
  Bid._id <$> sort_desc [Bid.mk 0 7 2 NaN "pending" 1; Bid.mk 1 7 3 (Fin 5) "pending" 2]
  = [1; 0].
Proof. vm_compute. reflexivity. Qed.

(** *** C1 *)


(** *** C2 *)

(** The write of the vehicle throws after the booking was saved: the
    response is 500, the booking exists, the vehicle is still available
    and both bids are still pending. *)
Lemma confirmBooking_not_atomic :
  response Local (Demo.failing 1) Demo.confirm Demo.bidding
    = mkResponse 500 (Message "Server error")
  ∧ bookings (store Local (Demo.failing 1) Demo.confirm Demo.bidding)
    = [Booking.mk 0 7 3 1 1 (Fin 15000) "confirmed" 1000]
  ∧ vehicles (store Local (Demo.failing 1) Demo.confirm Demo.bidding) !! 7
    = Some Demo.car
  ∧ length (pending (store Local (Demo.failing 1) Demo.confirm Demo.bidding) 7) = 2
  ∧ ¬ allOrNothing Local (Demo.failing 1) Demo.confirm Demo.bidding.
Proof.
  split_and!; [vm_compute; reflexivity..|].
  intros [Heq|Heq].
  - apply (f_equal (λ d, length (bookings d))) in Heq. vm_compute in Heq.
    discriminate.
  - apply (f_equal (λ d, Vehicle.status <$> vehicles d !! 7)) in Heq.
    vm_compute in Heq. discriminate.
Qed.

Lemma confirmBooking_writes_in_order_witness :
  vehicles Demo.bidding !! 7 = Some Demo.car
  ∧ Vehicle.status Demo.car = "available"
  ∧ Vehicle.sellerId Demo.car = 1
  ∧ highestPending Demo.bidding 7 = Some (Bid.mk 1 7 3 (Fin 15000) "pending" 300)
  ∧ store Local (Demo.failing 2) Demo.confirm Demo.bidding
    = markSold 7 (with_bookings
        (λ l, l ++ [Booking.mk 0 7 3 1 1 (Fin 15000) "confirmed" 1000])
        Demo.bidding).
Proof.
  split_and!; [reflexivity..|].
  apply (confirmBooking_writes_in_order Local (Demo.failing 2) Demo.bidding 1 7
           Demo.car (Bid.mk 1 7 3 (Fin 15000) "pending" 300)
           eq_refl eq_refl eq_refl eq_refl).
Defined.

(** *** C3 *)


(** *** C4 *)


(** *** C5 *)

(** The seller bids 20000 on the own car: the status is 400, not 403. *)
Lemma placeBid_by_seller_not_403 :
  code (response Serverless Demo.env
          (PostBids (Bearer 1) (Some 7) (VStr "20000")) Demo.listed) = 400
  ∧ code (response Local Demo.env
            (PostBids (Bearer 1) (Some 7) (VStr "20000")) Demo.listed) ≠ 403
  ∧ code (response Serverless Demo.env
            (PostBids (Bearer 1) (Some 7) (VStr "20000")) Demo.listed) ≠ 403.
Proof. split_and!; vm_compute; [reflexivity|discriminate..]. Qed.

Lemma placeBid_by_seller_rejected_witness :
  vehicles Demo.listed !! 7 = Some Demo.car
  ∧ ∃ message,
      serve Serverless Demo.env
            (PostBids (Bearer (Vehicle.sellerId Demo.car)) (Some 7) (VStr "20000"))
            Demo.listed
        = (mkResponse 400 (Message message), Demo.listed, [])
      ∧ (truthy (VStr "20000") = true → Vehicle.status Demo.car = "available" →
         message = "You cannot bid on your own vehicle").
Proof.
  split; [reflexivity|].
  apply (placeBid_by_seller_rejected Serverless Demo.env Demo.listed 7 Demo.car
           (VStr "20000") eq_refl).
Defined.

(** *** C6 *)

Lemma confirmBooking_refused_no_mutation_witness :
  Refused Demo.bidding 2 (Some 7)
          (mkResponse 403 (Message "Only seller can confirm booking"))
  ∧ serve Local Demo.env (PostBookings (Bearer 2) (Some 7)) Demo.bidding
    = (mkResponse 403 (Message "Only seller can confirm booking"),
       Demo.bidding, []).
Proof.
  assert (Refused Demo.bidding 2 (Some 7)
            (mkResponse 403 (Message "Only seller can confirm booking"))) as Hr.
  { apply refused_not_seller with Demo.car; [reflexivity..|]. simpl. lia. }
  split; [exact Hr|].
  apply (confirmBooking_refused_no_mutation Local Demo.env Demo.bidding 2 (Some 7) _ Hr).
Defined.

(** *** C8 *)



(** *** C9 *)

(** C9. The local server does not keep the acknowledgement generic: for
    the address of an account the body carries the reset link and the
    raw token, for an unknown address it carries the message alone; the
    serverless API answers both with the message alone. *)
Theorem forgotPassword_local_discloses_token :
  response Local Demo.env (PostForgotPassword "sam@example.com") Demo.listed
    = mkResponse 200
        (MessageReset acknowledgement
           "http://localhost:5500/frontend/pages/reset-password.html?token=c0ffee&email=sam@example.com"
           "c0ffee")
  ∧ response Local Demo.env (PostForgotPassword "nobody@example.com") Demo.listed
    = mkResponse 200 (Message acknowledgement)
  ∧ response Serverless Demo.env (PostForgotPassword "sam@example.com") Demo.listed
    = response Serverless Demo.env (PostForgotPassword "nobody@example.com") Demo.listed.
Proof. split_and!; vm_compute; reflexivity. Qed.

(** *** C10 *)


End Scenarios.

(** * Further properties *)

(** ** What one request does to the marketplace *)

Section Cases.

Context `{Crypto}.
Implicit Types (var : Variant) (env : Env) (d : DB) (req : Request).

(** The guards of a bid either refuse it and change nothing, or let it
    through to the write. *)
Lemma placeBid_cases var env d userId vehicleId amount :
  (∃ r, serve var env (PostBids (Bearer userId) vehicleId amount) d = (r, d, [])
        ∧ code r ≠ 201)
  ∨ (∃ vid vehicle,
       vehicleId = Some vid
       ∧ vehicles d !! vid = Some vehicle
       ∧ Vehicle.status vehicle = "available"
       ∧ Vehicle.sellerId vehicle ≠ userId
       ∧ truthy amount = true
       ∧ Num.le (parseFloat amount) (Vehicle.price vehicle) = false
       ∧ (∀ b, b ∈ pending d vid → Num.le (parseFloat amount) (Bid.amount b) = false)
       ∧ budget env ≠ Some 0
       ∧ store var env (PostBids (Bearer userId) vehicleId amount) d
         = with_bids (λ l, l ++ [bidFor env d vid userId amount]) d
       ∧ response var env (PostBids (Bearer userId) vehicleId amount) d
         = mkResponse 201 (MessageBid "Bid placed successfully"
                             (bidFor env d vid userId amount))).
Proof.
  destruct vehicleId as [vid|]; [|left; eexists; by run_handler].
  destruct (truthy amount) eqn:Ht;
    [|left; eexists; run_handler; by rewrite Ht].
  destruct (vehicles d !! vid) as [vehicle|] eqn:Hv;
    [|left; eexists; run_handler; rewrite Ht; simpl; by rewrite Hv].
  destruct (decide (Vehicle.status vehicle = "available")) as [Hs|Hs];
    [|left; eexists; by rewrite (placeBid_unavailable var env d userId vid vehicle)].
  destruct (decide (Vehicle.sellerId vehicle = userId)) as [Hu|Hu].
  { left. subst userId. eexists.
    by rewrite (placeBid_by_seller_run var env d vid vehicle). }
  unfold store, response.
  rewrite (placeBid_run var env d userId vid vehicle amount) by done.
  destruct (Num.le (parseFloat amount) (Vehicle.price vehicle)) eqn:Eprice;
    [left; by eexists|].
  assert (match highestPending d vid with
          | Some h => Num.le (parseFloat amount) (Bid.amount h)
          | None => false
          end = false →
          ∀ b, b ∈ pending d vid →
               Num.le (parseFloat amount) (Bid.amount b) = false) as Hall.
  { intros Hh b Hb. destruct (highestPending d vid) as [h|] eqn:Eh.
    - apply highestPending_first_max in Eh.
      pose proof (first_max_greatest _ _ b Eh Hb) as Hle.
      destruct (Num.isNaN (parseFloat amount)) eqn:Ea;
        [by destruct (parseFloat amount)|].
      destruct (Num.isNaN (Bid.amount b)) eqn:Eb;
        [destruct (Bid.amount b); try done; apply NumFacts.le_NaN_r|].
      by eapply NumFacts.not_le_below.
    - exfalso. unfold highestPending in Eh.
      destruct (head_sort_desc_is_Some (pending d vid)) as [? ?]; [|congruence].
      intros E. rewrite E in Hb. by apply elem_of_nil in Hb. }
  destruct (match highestPending d vid with Some _ => _ | None => _ end);
    [left; by eexists|].
  destruct (budget env) as [[|k]|] eqn:Eb; [left; by eexists|..];
    right; exists vid, vehicle; by split_and!; auto.
Qed.

(** One request leaves vehicles, bids and bookings alone, or lists a new
    vehicle, or appends a bid that passed the floor, or runs the writes of
    a confirmation. *)
Lemma serve_cases var env req d :
  (vehicles (store var env req d) = vehicles d
   ∧ bids (store var env req d) = bids d
   ∧ bookings (store var env req d) = bookings d)
  ∨ (∃ userId form files vehicle,
       req = PostVehicles (Bearer userId) form files
       ∧ Vehicle.status vehicle = "available"
       ∧ Vehicle.sellerId vehicle = userId
       ∧ vehicles (store var env req d)
         = <[fresh (dom (vehicles d)) := vehicle]> (vehicles d)
       ∧ bids (store var env req d) = bids d
       ∧ bookings (store var env req d) = bookings d)
  ∨ (∃ userId vid vehicle amount,
       req = PostBids (Bearer userId) (Some vid) amount
       ∧ vehicles d !! vid = Some vehicle
       ∧ Vehicle.status vehicle = "available"
       ∧ Vehicle.sellerId vehicle ≠ userId
       ∧ Num.le (parseFloat amount) (Vehicle.price vehicle) = false
       ∧ (∀ b, b ∈ pending d vid →
               Num.le (parseFloat amount) (Bid.amount b) = false)
       ∧ store var env req d
         = with_bids (λ l, l ++ [bidFor env d vid userId amount]) d)
  ∨ (∃ vid vehicle w,
       req = PostBookings (Bearer (Vehicle.sellerId vehicle)) (Some vid)
       ∧ vehicles d !! vid = Some vehicle
       ∧ Vehicle.status vehicle = "available"
       ∧ highestPending d vid = Some w
       ∧ store var env req d
         = applyWrites
             (take (completed (budget env) 4)
                   (confirmWrites (bookingFor env d vid vehicle w) vid (Bid._id w)))
             d).
Proof.
  destruct req as [name email password phone|token email newPassword
                  |a form files|a vehicleId amount|id|a vehicleId|email].
  - left. run_handler. repeat case_match; by simplify_eq/=.
  - left. run_handler. repeat case_match; by simplify_eq/=.
  - destruct a as [| |userId]; [by left..|].
    run_handler. repeat case_match; simplify_eq/=; try by left.
    all: right; left; eexists _, _, _, _;
      split_and!; [done|idtac|idtac|reflexivity|done|done]; reflexivity.
  - destruct a as [| |userId]; [by left..|].
    destruct (placeBid_cases var env d userId vehicleId amount)
      as [(r & Hr & _)|(vid & vehicle & -> & Hv & Hs & Hu & Ht & Hp & Hb & _ & Hst & _)].
    + left. unfold store. by rewrite Hr.
    + right; right; left. by exists userId, vid, vehicle, amount.
  - by left.
  - destruct a as [| |userId]; [by left..|].
    destruct (confirm_guards d userId vehicleId)
      as [[r Hr]|(vid & vehicle & w & -> & Hv & Hs & Hu & Hw)].
    + left. unfold store.
      by rewrite (confirmBooking_refused var env d userId vehicleId r).
    + right; right; right. exists vid, vehicle, w. subst userId.
      split_and!; try done. unfold store.
      by rewrite (confirmBooking_run var env d _ vid vehicle w).
  - left. run_handler. repeat case_match; by simplify_eq/=.
Qed.

(** What the writes of a confirmation leave of the pending bids of any
    vehicle is a sublist of what was pending. *)
Lemma pending_confirmWrites booking vehicleId w k d vid :
  pending (applyWrites (take k (confirmWrites booking vehicleId (Bid._id w))) d) vid
    `sublist_of` pending d vid.
Proof.
  unfold pending. rewrite settled_confirmWrites.
  assert (∀ (f : Bid.t → Bid.t) (l : list Bid.t),
            (∀ b, f b = b ∨ (Bid.vehicleId (f b) = Bid.vehicleId b
                             ∧ Bid.status (f b) ≠ "pending")) →
            filter (λ b, Bid.vehicleId b = vid ∧ Bid.status b = "pending") (f <$> l)
              `sublist_of`
            filter (λ b, Bid.vehicleId b = vid ∧ Bid.status b = "pending") l)
    as Hdemote.
  { intros f l Hf. induction l as [|x l IH]; [done|].
    rewrite fmap_cons, !filter_cons. destruct (Hf x) as [->|[Hv Hs]].
    - case_decide; [by apply sublist_skip|done].
    - rewrite decide_False by (intros [_ ?]; done).
      case_decide; [by apply sublist_cons|done]. }
  repeat case_decide; [apply Hdemote..|done].
  - intros b. unfold settle. repeat case_decide; simpl; auto.
  - intros b. case_decide; simpl; auto.
Qed.

End Cases.

(** ** The floor only rises *)

Section Floor.

Context `{Crypto}.
Implicit Types (var : Variant) (env : Env) (d : DB) (req : Request).

Lemma rising_sublist (k l : list Bid.t) :
  k `sublist_of` l → rising l → rising k.
Proof.
  unfold rising. induction 1 as [|x k l Hkl IH|x k l Hkl IH]; intros Hl.
  - constructor.
  - apply StronglySorted_inv in Hl as [Hl Hx]. constructor; [by apply IH|].
    rewrite Forall_forall in *. intros y Hy. apply Hx.
    by eapply elem_of_sublist.
  - apply StronglySorted_inv in Hl as [Hl _]. by apply IH.
Qed.

Lemma rising_snoc (l : list Bid.t) b :
  rising l →
  (∀ x, x ∈ l → Num.le (Bid.amount b) (Bid.amount x) = false) →
  rising (l ++ [b]).
Proof.
  unfold rising. intros Hl Hb.
  apply StronglySorted_app_2; [|done|repeat constructor].
  intros x y Hx ->%list_elem_of_singleton. by apply Hb.
Qed.

Lemma floor_kept_serve var env req d :
  floor_kept d → floor_kept (store var env req d).
Proof.
  intros Hd vid'.
  destruct (serve_cases var env req d)
    as [(_ & Hb & _)|[(? & ? & ? & ? & _ & _ & _ & _ & Hb & _)
       |[(u & vid & v & amount & _ & _ & _ & _ & _ & Hfloor & ->)
        |(vid & v & w & _ & _ & _ & _ & ->)]]].
  - unfold pending. rewrite Hb. apply Hd.
  - unfold pending. rewrite Hb. apply Hd.
  - unfold pending. simpl. rewrite filter_app, filter_cons, filter_nil.
    case_decide as Hnew; simpl in Hnew; [|rewrite app_nil_r; apply Hd].
    destruct Hnew as [-> _]. apply rising_snoc; [apply Hd|]. apply Hfloor.
  - eapply rising_sublist; [apply pending_confirmWrites|apply Hd].
Qed.

Lemma floor_kept_run var reqs d : floor_kept d → floor_kept (run var reqs d).
Proof.
  revert d. induction reqs as [|[env req] reqs IH]; intros d Hd; [done|].
  simpl. by apply IH, floor_kept_serve.
Qed.

(** Among rising bids with numeric amounts the last one is the one that
    the sorted query returns first. *)
Lemma rising_head_last (l : list Bid.t) :
  rising l →
  Forall (λ b, Num.isNaN (Bid.amount b) = false) l →
  head (sort_desc l) = last l.
Proof.
  intros Hl Hnum. destruct (last l) as [w|] eqn:Hw.
  - apply last_Some in Hw as [l' ->]. apply first_max_head.
    exists l', []. split_and!; [done| |constructor].
    apply StronglySorted_app in Hl as (Hl & _ & _).
    apply Forall_app in Hnum as [Hl' Hw]. apply Forall_cons in Hw as [Hw _].
    rewrite Forall_forall in *. intros b Hb.
    specialize (Hl b w Hb (list_elem_of_here _ _)). specialize (Hl' b Hb).
    by destruct (Bid.amount w), (Bid.amount b).
  - apply last_None in Hw as ->. done.
Qed.

(** X1. The floor of a vehicle only rises: in every store reached from one
    in which it did (the empty store for instance), whatever the requests
    and whatever fails, each pending bid of a vehicle is not at or below
    any pending bid placed before it; when the amounts are numbers, no two
    pending bids are tied and the bid that would win is the one placed
    last. *)
Theorem floor_only_rises var reqs d vehicleId :
  floor_kept d →
  let d' := run var reqs d in
  rising (pending d' vehicleId)
  ∧ (Forall (λ b, Num.isNaN (Bid.amount b) = false) (pending d' vehicleId) →
     highestPending d' vehicleId = last (pending d' vehicleId)
     ∧ ∀ before earlier between later after,
         pending d' vehicleId = before ++ earlier :: between ++ later :: after →
         Num.gt (Bid.amount later) (Bid.amount earlier) = true).
Proof.
  intros Hd d'. pose proof (floor_kept_run var reqs d Hd vehicleId) as Hrise.
  fold d' in Hrise. split; [done|]. intros Hnum.
  split; [by apply rising_head_last|].
  intros l1 b1 l2 b2 l3 Heq. rewrite Heq in Hrise, Hnum.
  apply StronglySorted_app_1_r, StronglySorted_inv in Hrise as [_ Hlater].
  rewrite Forall_forall in Hlater, Hnum.
  assert (b2 ∈ l2 ++ b2 :: l3) as Hb2
    by (apply elem_of_app; right; apply elem_of_cons; by left).
  specialize (Hlater b2 Hb2).
  rewrite NumFacts.gt_not_le, Hlater; [done|apply Hnum..].
  - apply elem_of_app; right. apply elem_of_cons; by right.
  - apply elem_of_app; right. apply elem_of_cons; by left.
Qed.

Lemma floor_kept_empty : floor_kept emptyDB.
Proof. intros vid. constructor. Qed.

End Floor.

(** ** After the sale *)

Section Closed.

Context `{Crypto}.
Implicit Types (var : Variant) (env : Env) (d : DB) (req : Request).

Lemma closed_serve var env req d vehicleId :
  closed d vehicleId → closed (store var env req d) vehicleId.
Proof.
  intros [(v & Hv & Hs) Hnone]. split.
  - destruct (serve_vehicle_status var env req d vehicleId v Hv)
      as (v' & Hv' & [Heq|[? _]]); [|done].
    exists v'. split; [done|congruence].
  - destruct (serve_cases var env req d)
      as [(_ & Hb & _)|[(? & ? & ? & ? & _ & _ & _ & _ & Hb & _)
         |[(u & vid & v0 & amount & _ & Hv0 & Hs0 & _ & _ & _ & ->)
          |(vid & v0 & w & _ & _ & _ & _ & ->)]]].
    + unfold pending. rewrite Hb. apply Hnone.
    + unfold pending. rewrite Hb. apply Hnone.
    + unfold pending in *. simpl. rewrite filter_app, Hnone, filter_cons, filter_nil.
      rewrite decide_False; [done|]. simpl. intros [<- _]. congruence.
    + apply sublist_nil_r. rewrite <-Hnone. apply pending_confirmWrites.
Qed.

Lemma closed_run var reqs d vehicleId :
  closed d vehicleId → closed (run var reqs d) vehicleId.
Proof.
  revert d. induction reqs as [|[env req] reqs IH]; intros d Hd; [done|].
  simpl. by apply IH, closed_serve.
Qed.

(** A confirmation whose writes all go through closes the bidding. *)
Lemma confirmBooking_closes var env d vehicleId vehicle w :
  budget env = None →
  vehicles d !! vehicleId = Some vehicle →
  Vehicle.status vehicle = "available" →
  highestPending d vehicleId = Some w →
  closed (store var env
            (PostBookings (Bearer (Vehicle.sellerId vehicle)) (Some vehicleId)) d)
         vehicleId.
Proof.
  intros Hb Hv Hs Hw. unfold store.
  rewrite (confirmBooking_run var env d _ vehicleId vehicle w) by done.
  rewrite Hb. simpl. split.
  - exists (Vehicle.set_status "sold" vehicle). simpl.
    by rewrite lookup_alter_eq, Hv.
  - unfold pending. simpl. rewrite accept_then_reject.
    induction (bids d) as [|x l IH]; [done|].
    rewrite fmap_cons, filter_cons_False; [done|].
    unfold settle. intros [? ?].
    repeat case_decide; simpl in *; destruct_and?; try tauto; congruence.
Qed.

(** X2. After a confirmation whose writes all went through, whatever
    requests follow and whatever fails in them, the public list of the
    vehicle's bids is empty and a further confirmBooking on the vehicle,
    by anyone, is answered 400 "Vehicle already booked" and changes
    nothing. *)
Theorem sold_vehicle_stays_closed var env reqs d vehicleId vehicle :
  budget env = None →
  vehicles d !! vehicleId = Some vehicle →
  Vehicle.status vehicle = "available" →
  pending d vehicleId ≠ [] →
  let confirm := PostBookings (Bearer (Vehicle.sellerId vehicle)) (Some vehicleId) in
  let d' := run var reqs (store var env confirm d) in
  code (response var env confirm d) = 201
  ∧ (∀ env', serve var env' (GetBids vehicleId) d'
             = (mkResponse 200 (BidList []), d', []))
  ∧ (∀ env' userId,
       serve var env' (PostBookings (Bearer userId) (Some vehicleId)) d'
       = (mkResponse 400 (Message "Vehicle already booked"), d', [])).
Proof.
  intros Hb Hv Hs Hp confirm d'.
  destruct (head_sort_desc_is_Some _ Hp) as [w Hw].
  assert (closed d' vehicleId) as [(v' & Hv' & Hs') Hnone].
  { apply closed_run. by eapply confirmBooking_closes. }
  split_and!.
  - unfold response, confirm.
    rewrite (confirmBooking_run var env d _ vehicleId vehicle w) by done.
    by rewrite Hb.
  - intros env'. run_handler. by rewrite Hnone.
  - intros env' userId. apply confirmBooking_refused.
    by eapply refused_not_available.
Qed.

End Closed.

(** ** One booking per vehicle *)

Section Booked.

Context `{Crypto}.
Implicit Types (var : Variant) (env : Env) (d : DB) (req : Request).

Lemma booked_once_serve var env req d :
  budget env = None → booked_once d → booked_once (store var env req d).
Proof.
  intros Hbudget [Hdup Hsold].
  destruct (serve_cases var env req d)
    as [(Hv & _ & Hbk)|[(? & ? & ? & v & _ & _ & _ & Hv & _ & Hbk)
       |[(u & vid & v0 & amount & _ & _ & _ & _ & _ & _ & ->)
        |(vid & v0 & w & _ & Hv0 & Hs0 & _ & ->)]]].
  - split; [by rewrite Hbk|]. intros bk Hin. rewrite Hbk in Hin. rewrite Hv.
    by apply Hsold.
  - split; [by rewrite Hbk|]. intros bk Hin. rewrite Hbk in Hin. rewrite Hv.
    destruct (Hsold bk Hin) as (v1 & Hv1 & ?). exists v1. split; [|done].
    rewrite lookup_insert_ne; [done|]. intros Heq.
    apply (is_fresh (dom (vehicles d))). rewrite Heq. by apply elem_of_dom.
  - done.
  - unfold booked_once. rewrite Hbudget. simpl. split.
    + rewrite fmap_app. apply NoDup_app. split_and!; [done| |apply NoDup_singleton].
      intros x Hx ->%list_elem_of_singleton.
      apply list_elem_of_fmap in Hx as (bk & Heq & Hbk).
      destruct (Hsold bk Hbk) as (v1 & Hv1 & Hs1). simpl in Heq.
      rewrite <-Heq, Hv0 in Hv1. congruence.
    + intros bk Hbk. apply elem_of_app in Hbk as [Hbk|Hbk].
      * destruct (Hsold bk Hbk) as (v1 & Hv1 & Hs1).
        by eapply sold_stays_unavailable.
      * apply list_elem_of_singleton in Hbk as ->. simpl.
        rewrite lookup_alter_eq, Hv0. by eexists.
Qed.

Lemma booked_once_empty : booked_once emptyDB.
Proof. split; [apply NoDup_nil_2|]. by intros bk ?%elem_of_nil. Qed.

(** X3. As long as no write fails, no vehicle is booked twice: in every
    store reached from one with at most one booking per vehicle and no
    booked vehicle available (the empty store for instance), the bookings
    name distinct vehicles and every booked vehicle has stopped being
    available. *)
Theorem never_booked_twice var reqs d :
  booked_once d → faultless reqs → booked_once (run var reqs d).
Proof.
  revert d. induction reqs as [|[env req] reqs IH]; intros d Hd Hok; [done|].
  apply Forall_cons in Hok as [Henv Hok]. simpl.
  apply IH; [|done]. by apply booked_once_serve.
Qed.

End Booked.

(** ** The life of a bid *)

Section BidLife.

Context `{Crypto}.
Implicit Types (var : Variant) (env : Env) (d : DB) (req : Request).

(** One request and one bid: the bid stays in the collection with its
    vehicle, bidder, amount and date, and keeps its status unless the
    request is the confirmation of its vehicle, which settles it. *)
Lemma serve_bid var env req d b :
  unique_bid_ids d → b ∈ bids d →
  b ∈ bids (store var env req d)
  ∨ (Bid.status b = "pending"
     ∧ (∃ userId, req = PostBookings (Bearer userId) (Some (Bid.vehicleId b)))
     ∧ (Bid.set_status "accepted" b ∈ bids (store var env req d)
        ∨ Bid.set_status "rejected" b ∈ bids (store var env req d))).
Proof.
  intros Hids Hb.
  destruct (serve_cases var env req d)
    as [(_ & Hbids & _)|[(? & ? & ? & ? & _ & _ & _ & _ & Hbids & _)
       |[(u & vid & v0 & amount & _ & _ & _ & _ & _ & _ & ->)
        |(vid & v0 & w & -> & Hv0 & Hs0 & Hw & ->)]]].
  - left. by rewrite Hbids.
  - left. by rewrite Hbids.
  - left. simpl. apply elem_of_app. by left.
  - apply highestPending_first_max, first_max_elem, pending_elem in Hw
      as (Hwl & Hwv & Hwp).
    rewrite settled_confirmWrites.
    pose proof (list_elem_of_fmap_2 (settle vid (Bid._id w)) _ _ Hb) as Hsettled.
    pose proof (list_elem_of_fmap_2
      (λ b, if decide (Bid._id b = Bid._id w)
            then Bid.set_status "accepted" b else b) _ _ Hb) as Haccepted.
    simpl in Haccepted. unfold settle in Hsettled.
    assert (Bid._id b = Bid._id w → Bid.vehicleId b = vid ∧ Bid.status b = "pending")
      as Hwinner.
    { intros Hid. by rewrite (unique_id_eq _ b w Hids Hb Hwl Hid). }
    destruct (decide (4 ≤ completed (budget env) 4)) as [Hk|Hk];
      [|destruct (decide (completed (budget env) 4 = 3)) as [Hk3|Hk3]].
    + destruct (decide (Bid._id b = Bid._id w)) as [Hid|Hid].
      * destruct (Hwinner Hid) as [<- Hp]. right. split_and!; eauto.
      * destruct (decide (Bid.vehicleId b = vid ∧ Bid.status b = "pending"))
          as [[<- Hp]|Hno]; [|by left].
        right. split_and!; eauto.
    + destruct (decide (Bid._id b = Bid._id w)) as [Hid|Hid]; [|by left].
      destruct (Hwinner Hid) as [<- Hp]. right. split_and!; eauto.
    + by left.
Qed.

(** X4. A bid is never removed and its vehicle, bidder, amount and date
    never change. One request keeps its status, or, when the bid is
    pending and the request is a confirmBooking on its vehicle, turns it
    into accepted or rejected; a bid that is no longer pending stays as it
    is through any sequence of requests. *)
Theorem bid_settled_once var d b :
  unique_bid_ids d → b ∈ bids d →
  (∀ env req,
     b ∈ bids (store var env req d)
     ∨ (Bid.status b = "pending"
        ∧ (∃ userId, req = PostBookings (Bearer userId) (Some (Bid.vehicleId b)))
        ∧ (Bid.set_status "accepted" b ∈ bids (store var env req d)
           ∨ Bid.set_status "rejected" b ∈ bids (store var env req d))))
  ∧ (Bid.status b ≠ "pending" → ∀ reqs, b ∈ bids (run var reqs d)).
Proof.
  intros Hids Hb. split; [intros env req; by apply serve_bid|].
  intros Hs reqs. revert d Hids Hb.
  induction reqs as [|[env req] reqs IH]; intros d Hids Hb; [done|].
  simpl. apply IH; [by apply unique_bid_ids_serve|].
  by destruct (serve_bid var env req d b Hids Hb) as [?|[? _]].
Qed.

End BidLife.

(** ** Who may write *)

Section Attribution.

Context `{Crypto}.
Implicit Types (var : Variant) (env : Env) (d : DB) (req : Request).

(** X5. Vehicles, bids and bookings change only for a request with a
    verified token, and what is new is in the name of its user: a vehicle
    that was not in the store has the caller as seller, a bid with a new
    id has the caller as bidder, and a booking that was not in the store
    has the caller as seller. *)
Theorem documents_in_the_name_of_caller var env req d :
  let d' := store var env req d in
  (caller req = None →
     vehicles d' = vehicles d ∧ bids d' = bids d ∧ bookings d' = bookings d)
  ∧ (∀ id vehicle, vehicles d' !! id = Some vehicle → vehicles d !! id = None →
       caller req = Some (Vehicle.sellerId vehicle))
  ∧ (∀ b, b ∈ bids d' → Bid._id b ∉ Bid._id <$> bids d →
       caller req = Some (Bid.userId b))
  ∧ (∀ booking, booking ∈ bookings d' → booking ∉ bookings d →
       caller req = Some (Booking.sellerId booking)).
Proof.
  intros d'. subst d'.
  destruct (serve_cases var env req d)
    as [(Hv & Hb & Hbk)|[(u & form & files & v & -> & _ & Hu & Hv & Hb & Hbk)
       |[(u & vid & v0 & amount & -> & _ & _ & _ & _ & _ & ->)
        |(vid & v0 & w & -> & Hv0 & Hs0 & Hw & ->)]]].
  - rewrite Hv, Hb, Hbk. split_and!; [done|..].
    + intros id v ? ?. congruence.
    + intros b Hin Hnew. destruct Hnew. by apply list_elem_of_fmap_2.
    + done.
  - rewrite Hv, Hb, Hbk. split_and!; [done|..].
    + intros id v' Hin Hnew. rewrite lookup_insert in Hin.
      case_decide; [by simplify_eq/=|congruence].
    + intros b Hin Hnew. destruct Hnew. by apply list_elem_of_fmap_2.
    + done.
  - simpl. split_and!; [done|congruence| |done].
    intros b Hin Hnew. apply elem_of_app in Hin as [Hin|Hin].
    + destruct Hnew. by apply list_elem_of_fmap_2.
    + by apply list_elem_of_singleton in Hin as ->.
  - rewrite vehicles_confirmWrites. split_and!; [done|..].
    + intros id v Hin Hnew. exfalso. case_decide; [|congruence].
      destruct (decide (vid = id)) as [->|Hne].
      * by rewrite Hv0 in Hnew.
      * rewrite lookup_alter_ne in Hin by done. congruence.
    + intros b Hin Hnew. destruct Hnew.
      rewrite <-(bids_confirmWrites (bookingFor env d vid v0 w) vid (Bid._id w)
                   (completed (budget env) 4) d).
      by apply list_elem_of_fmap_2.
    + intros bk Hin Hnew. simpl.
      destruct (completed (budget env) 4) as [|[|[|[|[|k]]]]]; simpl in Hin;
        try done; apply elem_of_app in Hin as [Hin|Hin]; try done;
        by apply list_elem_of_singleton in Hin as ->.
Qed.

End Attribution.

(** ** Accounts *)

Section Accounts.

Context `{Crypto}.
Implicit Types (var : Variant) (env : Env) (d : DB) (req : Request).

Lemma empty_false (s : string) : s ≠ "" → empty s = false.
Proof. intros Hs. unfold empty. by apply String.eqb_neq. Qed.

Lemma empty_true_iff (s : string) : empty s = true ↔ s = "".
Proof. unfold empty. apply String.eqb_eq. Qed.

(** The account that a registration adds. *)
Lemma register_run var env d name email password phone :
  serve var env (PostRegister name email password phone) d =
    if empty name || empty email || empty password || empty phone
    then (mkResponse 400 (Message "All fields are required"), d, [])
    else if String.length password <? 8
    then (mkResponse 400 (Message "Password must be at least 8 characters"), d, [])
    else match findUserByEmail d email with
    | Some _ => (mkResponse 400 (Message "Email already registered"), d, [])
    | None =>
      match budget env with
      | Some 0 => (mkResponse 500 (Message "Server error"), d, [])
      | _ =>
        (mkResponse 201 (Message "Registration successful"),
         with_users (λ l, l ++
           [User.mk (fresh (User._id <$> users d)) name email
                    (bcrypt (salt env) password) phone (now env)]) d,
         [])
      end
    end.
Proof.
  run_handler.
  destruct (empty name || empty email || empty password || empty phone); [done|].
  destruct (String.length password <? 8); [done|]. simpl.
  destruct (findUserByEmail d email); [done|].
  by destruct (budget env) as [[|k]|].
Qed.

(** One request keeps the accounts and their addresses, or appends an
    account whose address no account had. *)
Lemma serve_users var env req d :
  (User.email <$> users (store var env req d) = User.email <$> users d
   ∧ User._id <$> users (store var env req d) = User._id <$> users d)
  ∨ (∃ user,
       findUserByEmail d (User.email user) = None
       ∧ User._id user = fresh (User._id <$> users d)
       ∧ users (store var env req d) = users d ++ [user]).
Proof.
  destruct req as [name email password phone|token email newPassword
                  |a form files|a vehicleId amount|id|a vehicleId|email].
  - unfold store. rewrite register_run.
    destruct (empty name || empty email || empty password || empty phone);
      [by left|].
    destruct (String.length password <? 8); [by left|].
    destruct (findUserByEmail d email) eqn:Hfind; [by left|].
    destruct (budget env) as [[|k]|]; [by left|right..].
    all: by eexists (User.mk _ name email _ phone _).
  - left. run_handler. repeat case_match; simplify_eq/=; try done.
    all: split; rewrite <-list_fmap_compose; apply list_fmap_ext;
      intros _ u _; simpl; by case_decide.
  - left. destruct a as [| |userId]; [done..|].
    run_handler. repeat case_match; by simplify_eq/=.
  - left. destruct a as [| |userId]; [done..|].
    destruct (placeBid_cases var env d userId vehicleId amount)
      as [(r & Hr & _)|(vid & vehicle & _ & _ & _ & _ & _ & _ & _ & _ & Hst & _)].
    + unfold store. by rewrite Hr.
    + by rewrite Hst.
  - by left.
  - left. destruct a as [| |userId]; [done..|].
    destruct (confirm_guards d userId vehicleId)
      as [[r Hr]|(vid & vehicle & w & -> & Hv & Hs & Hu & Hw)].
    + unfold store. by rewrite (confirmBooking_refused var env d userId vehicleId r).
    + unfold store.
      rewrite (confirmBooking_run var env d userId vid vehicle w) by done.
      simpl. by destruct (completed (budget env) 4) as [|[|[|[|[|k]]]]].
  - left. run_handler. repeat case_match; by simplify_eq/=.
Qed.

Lemma findUserByEmail_None d email :
  findUserByEmail d email = None ↔ email ∉ User.email <$> users d.
Proof.
  unfold findUserByEmail. induction (users d) as [|u l IH]; simpl.
  - split; [intros _ ?%elem_of_nil|]; done.
  - rewrite not_elem_of_cons. case_bool_decide as Heq.
    + split; [done|]. intros [Hne _]. congruence.
    + rewrite IH. split; [intros Hl; split; [congruence|done]|by intros [_ Hl]].
Qed.

Lemma findUserByEmail_Some d email user :
  findUserByEmail d email = Some user → user ∈ users d ∧ User.email user = email.
Proof.
  unfold findUserByEmail. intros Hf. apply find_some in Hf as [Hin Heq].
  split; [by apply list_elem_of_In|]. by apply bool_decide_eq_true in Heq.
Qed.

Lemma unique_emails_serve var env req d :
  unique_emails d → unique_emails (store var env req d).
Proof.
  unfold unique_emails. intros Hd.
  destruct (serve_users var env req d) as [[-> _]|(u & Hnew & _ & ->)]; [done|].
  rewrite fmap_app. apply NoDup_app. split_and!; [done| |apply NoDup_singleton].
  intros x Hx ->%list_elem_of_singleton. by apply findUserByEmail_None in Hnew.
Qed.

(** With distinct addresses, the address of an account finds it. *)
Lemma unique_emails_find d user :
  unique_emails d → user ∈ users d →
  findUserByEmail d (User.email user) = Some user.
Proof.
  unfold unique_emails, findUserByEmail.
  induction (users d) as [|u l IH]; [by intros _ ?%elem_of_nil|].
  rewrite fmap_cons, NoDup_cons. intros [Hu Hl] Hin. simpl.
  apply elem_of_cons in Hin as [->|Hin]; [by rewrite bool_decide_eq_true_2|].
  rewrite bool_decide_eq_false_2; [by apply IH|].
  intros Heq. apply Hu. rewrite Heq. by apply list_elem_of_fmap_2.
Qed.

(** X6. No two accounts ever share an address: in every store reached
    from one with distinct addresses (the empty store for instance),
    whatever the requests and whatever fails, the addresses are distinct,
    so the address of an account is enough to find it. *)
Theorem addresses_stay_distinct var reqs d :
  unique_emails d →
  unique_emails (run var reqs d)
  ∧ ∀ user, user ∈ users (run var reqs d) →
      findUserByEmail (run var reqs d) (User.email user) = Some user.
Proof.
  intros Hd. assert (unique_emails (run var reqs d)) as Hrun.
  { revert d Hd. induction reqs as [|[env req] reqs IH]; intros d Hd; [done|].
    simpl. by apply IH, unique_emails_serve. }
  split; [done|]. intros user. by apply unique_emails_find.
Qed.

(** X7. register answers 201 exactly when the four fields are present,
    the password has at least 8 characters, no account has the address
    and the write goes through; it then appends one account with a fresh
    id and the hash of the password, never the password itself, and in
    every other case it leaves the store as it was. *)
Theorem register_outcome var env d name email password phone :
  let req := PostRegister name email password phone in
  let user := User.mk (fresh (User._id <$> users d)) name email
                      (bcrypt (salt env) password) phone (now env) in
  (code (response var env req d) = 201
   ↔ name ≠ "" ∧ email ≠ "" ∧ password ≠ "" ∧ phone ≠ ""
     ∧ 8 ≤ String.length password
     ∧ findUserByEmail d email = None
     ∧ budget env ≠ Some 0)
  ∧ (code (response var env req d) = 201 →
     store var env req d = with_users (λ l, l ++ [user]) d)
  ∧ (code (response var env req d) ≠ 201 → store var env req d = d).
Proof.
  intros req user. unfold response, store, req. rewrite register_run.
  destruct (empty name) eqn:E1; simpl.
  { apply empty_true_iff in E1. split_and!; [|done..]. split; [done|tauto]. }
  destruct (empty email) eqn:E2; simpl.
  { apply empty_true_iff in E2. split_and!; [|done..]. split; [done|tauto]. }
  destruct (empty password) eqn:E3; simpl.
  { apply empty_true_iff in E3. split_and!; [|done..]. split; [done|tauto]. }
  destruct (empty phone) eqn:E4; simpl.
  { apply empty_true_iff in E4. split_and!; [|done..]. split; [done|tauto]. }
  assert (∀ s, empty s = false → s ≠ "") as Hne.
  { intros s Hs ->. done. }
  destruct (String.length password <? 8) eqn:E5.
  { apply Nat.ltb_lt in E5. split_and!; [|done..]. split; [done|]. intros ?. lia. }
  apply Nat.ltb_ge in E5.
  destruct (findUserByEmail d email) eqn:E6.
  { split_and!; [|done..]. split; [done|]. intros (_&_&_&_&_&?&_). done. }
  destruct (budget env) as [[|k]|] eqn:E7; simpl.
  - split_and!; [|done..]. split; [done|]. intros (_&_&_&_&_&_&?). done.
  - split_and!; [|done..]. split; [|done]. intros _. split_and!; auto.
  - split_and!; [|done..]. split; [|done]. intros _. split_and!; auto.
Qed.

End Accounts.

(** ** Reset links *)

Section ResetLinks.

Context `{Crypto}.
Implicit Types (var : Variant) (env : Env) (d : DB) (token email : string).

(** A reset that passes its checks: the two writes and the mail, until
    one throws. *)
Lemma resetPassword_run var env d token email newPassword user resetToken :
  token ≠ "" → email ≠ "" → 8 ≤ String.length newPassword →
  findUserByEmail d email = Some user →
  findResetToken d (User._id user) (sha256 token) = Some resetToken →
  let k := completed (budget env) 3 in
  serve var env (PostResetPassword token email newPassword) d =
    ( (if decide (k = 3)
       then mkResponse 200 (Message
         "Password reset successful! You can now login with your new password.")
       else mkResponse 500 (Message "Error resetting password. Please try again.")),
      applyWrites
        (take k (resetWrites (User._id user) (bcrypt (salt env) newPassword)
                             (ResetToken._id resetToken))) d,
      (if decide (k = 3) then [PasswordChangedMail (User.email user)] else []) ).
Proof.
  intros Htoken Hemail Hlen Huser Hfind k. subst k.
  assert (newPassword ≠ "") as Hnew by (intros ->; simpl in Hlen; lia).
  run_handler. rewrite !empty_false by done. simpl.
  rewrite (proj2 (Nat.ltb_ge _ _) Hlen). simpl. rewrite Huser.
  unfold findResetToken in Hfind. rewrite Hfind. unfold completed.
  destruct (budget env) as [[|[|[|n]]]|]; simpl; try done.
  all: rewrite ?Nat.min_0_r; simpl; by destruct d.
Qed.

(** A reset that fails a check answers 400 and writes nothing. *)
Lemma resetPassword_refused var env d token email newPassword :
  (∀ user, findUserByEmail d email = Some user →
           findResetToken d (User._id user) (sha256 token) = None) →
  code (response var env (PostResetPassword token email newPassword) d) = 400
  ∧ store var env (PostResetPassword token email newPassword) d = d.
Proof.
  intros Hnone. run_handler.
  destruct (empty token || empty email || empty newPassword); [done|].
  destruct (String.length newPassword <? 8); [done|]. simpl.
  destruct (findUserByEmail d email) as [user|]; [|done].
  specialize (Hnone user eq_refl). unfold findResetToken in Hnone.
  by rewrite Hnone.
Qed.

(** A request for a link that goes through keeps the accounts, drops the
    links of the account and stores the new one. *)
Lemma forgotPassword_run var env d email user :
  budget env = None → email ≠ "" →
  findUserByEmail d email = Some user →
  store var env (PostForgotPassword email) d
  = with_resetTokens
      (λ l, filter (λ t, ResetToken.userId t ≠ User._id user) l
            ++ [issued env d user]) d.
Proof.
  intros Hb Hne Hu. run_handler. rewrite empty_false by done. simpl.
  rewrite Hu, Hb. by destruct var, d.
Qed.

(** Among the links of an account that has just asked for one, a hash
    finds the new link or none. *)
Lemma find_issued (l : list ResetToken.t) (userId : oid) (t : ResetToken.t)
    (hashedToken : string) :
  ResetToken.userId t = userId →
  List.find (λ t', bool_decide (ResetToken.userId t' = userId
                                ∧ ResetToken.token t' = hashedToken))
            (filter (λ t', ResetToken.userId t' ≠ userId) l ++ [t])
  = if decide (ResetToken.token t = hashedToken) then Some t else None.
Proof.
  intros Ht. induction l as [|t' l IH].
  - simpl. case_decide.
    + by rewrite bool_decide_eq_true_2.
    + rewrite bool_decide_eq_false_2; [done|]. by intros [_ ?].
  - rewrite filter_cons.
    destruct (decide (ResetToken.userId t' ≠ userId)) as [Hother|_]; [|done].
    simpl. rewrite bool_decide_eq_false_2; [done|]. by intros [? _].
Qed.

(** No link of the account is left among the others. *)
Lemma find_others (l : list ResetToken.t) (userId : oid) (hashedToken : string) :
  List.find (λ t', bool_decide (ResetToken.userId t' = userId
                                ∧ ResetToken.token t' = hashedToken))
            (filter (λ t', ResetToken.userId t' ≠ userId) l)
  = None.
Proof.
  induction l as [|t' l IH]; [done|].
  rewrite filter_cons.
  destruct (decide (ResetToken.userId t' ≠ userId)) as [Hother|_]; [|done].
  simpl. rewrite bool_decide_eq_false_2; [done|]. by intros [? _].
Qed.

Lemma deleteOne_issued (l : list ResetToken.t) (t : ResetToken.t) :
  ResetToken._id t ∉ ResetToken._id <$> l →
  deleteOne (ResetToken._id t) (l ++ [t]) = l.
Proof.
  induction l as [|t' l IH]; simpl.
  - intros _. by rewrite decide_True.
  - rewrite not_elem_of_cons. intros [Hne Hl].
    rewrite decide_False by done. by rewrite IH.
Qed.

Lemma verifyResetToken_code token email d :
  (verifyResetToken token email d).1 = 200
  ↔ token ≠ "" ∧ email ≠ ""
    ∧ ∃ user resetToken,
        findUserByEmail d email = Some user
        ∧ findResetToken d (User._id user) (sha256 token) = Some resetToken.
Proof.
  unfold verifyResetToken.
  destruct (empty token) eqn:E1; simpl.
  { apply empty_true_iff in E1. split; [done|tauto]. }
  destruct (empty email) eqn:E2; simpl.
  { apply empty_true_iff in E2. split; [done|tauto]. }
  assert (token ≠ "" ∧ email ≠ "") as [??] by (split; intros ->; done).
  destruct (findUserByEmail d email) as [user|]; simpl.
  - destruct (findResetToken d (User._id user) (sha256 token)) as [t|] eqn:Ht; simpl.
    + split; [|done]. intros _. split_and!; [done..|]. by exists user, t.
    + split; [done|]. intros (_ & _ & u & t & [= <-] & Hu). congruence.
  - split; [done|]. by intros (_ & _ & u & t & ? & _).
Qed.

(** X8. Once an account has asked for a reset link, the links it was sent
    before are dead: the tokens that verify for its address are exactly
    the non-empty ones with the hash of the token just issued. *)
Theorem only_the_newest_link_verifies var env d email user token :
  budget env = None → email ≠ "" →
  findUserByEmail d email = Some user →
  (verifyResetToken token email (store var env (PostForgotPassword email) d)).1 = 200
  ↔ token ≠ "" ∧ sha256 token = sha256 (randomBytes env).
Proof.
  intros Hb Hne Hu. rewrite verifyResetToken_code.
  rewrite (forgotPassword_run var env d email user) by done.
  unfold findUserByEmail, findResetToken. destruct d as [us vs bs ks ts]. simpl.
  unfold findUserByEmail in Hu. simpl in Hu. rewrite Hu.
  split.
  - intros (Ht & _ & u & t & [= <-] & Hfind). split; [done|].
    rewrite find_issued in Hfind by done. simpl in Hfind.
    by case_decide.
  - intros [Ht Hhash]. split_and!; [done..|].
    exists user. eexists. split; [done|].
    rewrite find_issued by done. simpl. by rewrite decide_True.
Qed.

(** The reset that follows the request for the link, when its two writes
    go through. *)
Lemma reset_after_forgot var env env' d email user newPassword :
  budget env = None → email ≠ "" → randomBytes env ≠ "" →
  8 ≤ String.length newPassword →
  findUserByEmail d email = Some user →
  2 ≤ completed (budget env') 3 →
  serve var env' (PostResetPassword (randomBytes env) email newPassword)
        (store var env (PostForgotPassword email) d)
  = ( (if decide (completed (budget env') 3 = 3)
       then mkResponse 200 (Message
         "Password reset successful! You can now login with your new password.")
       else mkResponse 500 (Message "Error resetting password. Please try again.")),
      renewed user (bcrypt (salt env') newPassword) d,
      (if decide (completed (budget env') 3 = 3)
       then [PasswordChangedMail (User.email user)] else []) ).
Proof.
  intros Hb Hne Htok Hlen Hu Hk.
  rewrite (forgotPassword_run var env d email user) by done.
  rewrite (resetPassword_run var env' _ (randomBytes env) email newPassword
             user (issued env d user)); [|done..| |].
  - assert (∀ k, 2 ≤ k →
              applyWrites
                (take k (resetWrites (User._id user) (bcrypt (salt env') newPassword)
                                     (ResetToken._id (issued env d user))))
                (with_resetTokens
                   (λ l, filter (λ t, ResetToken.userId t ≠ User._id user) l
                         ++ [issued env d user]) d)
              = renewed user (bcrypt (salt env') newPassword) d) as Hwrites.
    { intros [|[|k]] Hle; [lia..|].
      unfold resetWrites. simpl. rewrite take_nil. simpl.
      unfold renewed, with_users, with_resetTokens. destruct d as [us vs bs ks ts].
      simpl. f_equal.
      apply (deleteOne_issued _ (issued env (mkDB us vs bs ks ts) user)).
      simpl. apply infinite_is_fresh. }
    by rewrite Hwrites.
  - by destruct d.
  - unfold findResetToken. destruct d as [us vs bs ks ts]. simpl.
    rewrite find_issued by done. simpl. by rewrite decide_True.
Qed.

(** A change of the accounts that keeps their addresses is seen by the
    search by address. *)
Lemma find_email_fmap (f : User.t → User.t) (l : list User.t) (email : string) :
  (∀ u, User.email (f u) = User.email u) →
  List.find (λ u, bool_decide (User.email u = email)) (f <$> l)
  = f <$> List.find (λ u, bool_decide (User.email u = email)) l.
Proof.
  intros Hf. induction l as [|u l IH]; [done|]. rewrite fmap_cons. simpl.
  rewrite Hf. by destruct (bool_decide (User.email u = email)).
Qed.

(** An account that has used its link has the new hash and no link. *)
Lemma renewed_spent d email user hashedPassword :
  findUserByEmail d email = Some user →
  findUserByEmail (renewed user hashedPassword d) email
  = Some (User.set_password hashedPassword user)
  ∧ ∀ hashedToken,
      findResetToken (renewed user hashedPassword d) (User._id user) hashedToken
      = None.
Proof.
  intros Hu. split.
  - unfold findUserByEmail, renewed in *. destruct d as [us vs bs ks ts].
    simpl in *. rewrite find_email_fmap, Hu; simpl.
    + by rewrite decide_True.
    + intros u. by destruct (decide (User._id u = User._id user)).
  - intros hashedToken. unfold findResetToken, renewed.
    destruct d as [us vs bs ks ts]. simpl. apply find_others.
Qed.

(** X9. A reset link works once. With the token of the link and a
    password of at least 8 characters the reset answers 200 and the
    account holds the hash of the new password; after it no token
    verifies for that address, and a further reset is refused with 400
    and changes nothing. *)
Theorem reset_link_works_once var env env' d email user newPassword :
  budget env = None → budget env' = None →
  email ≠ "" → randomBytes env ≠ "" → 8 ≤ String.length newPassword →
  findUserByEmail d email = Some user →
  let d1 := store var env (PostForgotPassword email) d in
  let reset := PostResetPassword (randomBytes env) email newPassword in
  let d2 := store var env' reset d1 in
  code (response var env' reset d1) = 200
  ∧ findUserByEmail d2 email
    = Some (User.set_password (bcrypt (salt env') newPassword) user)
  ∧ (∀ token, (verifyResetToken token email d2).1 = 400)
  ∧ (∀ env'' token newPassword',
       let again := PostResetPassword token email newPassword' in
       code (response var env'' again d2) = 400
       ∧ store var env'' again d2 = d2).
Proof.
  intros Hb Hb' Hne Htok Hlen Hu d1 reset d2.
  pose proof (reset_after_forgot var env env' d email user newPassword
                Hb Hne Htok Hlen Hu) as Hrun.
  rewrite Hb' in Hrun. specialize (Hrun ltac:(simpl; lia)). simpl in Hrun.
  destruct (renewed_spent d email user (bcrypt (salt env') newPassword) Hu)
    as [Hu2 Hgone].
  assert (response var env' reset d1 = mkResponse 200 (Message
            "Password reset successful! You can now login with your new password."))
    as Hresponse by (unfold response, reset, d1; by rewrite Hrun).
  assert (d2 = renewed user (bcrypt (salt env') newPassword) d) as ->
    by (unfold d2, store at 1, reset, d1; by rewrite Hrun).
  rewrite Hresponse. split_and!; [done..| |].
  - intros token. unfold verifyResetToken. rewrite Hu2. simpl. rewrite Hgone.
    by destruct (empty token || empty email).
  - intros env'' token newPassword' again.
    apply resetPassword_refused. intros u Hu'. rewrite Hu2 in Hu'.
    injection Hu' as <-. apply Hgone.
Qed.

(** X10. A reset whose confirmation mail fails answers 500 and asks to
    try again, but by then the password has been changed and the link
    consumed: trying again with the same link is refused with 400. *)
Theorem resetPassword_mail_failure var env env' d email user newPassword :
  budget env = None → budget env' = Some 2 →
  email ≠ "" → randomBytes env ≠ "" → 8 ≤ String.length newPassword →
  findUserByEmail d email = Some user →
  let d1 := store var env (PostForgotPassword email) d in
  let reset := PostResetPassword (randomBytes env) email newPassword in
  let d2 := store var env' reset d1 in
  response var env' reset d1
  = mkResponse 500 (Message "Error resetting password. Please try again.")
  ∧ findUserByEmail d2 email
    = Some (User.set_password (bcrypt (salt env') newPassword) user)
  ∧ ∀ env'', code (response var env'' reset d2) = 400.
Proof.
  intros Hb Hb' Hne Htok Hlen Hu d1 reset d2.
  pose proof (reset_after_forgot var env env' d email user newPassword
                Hb Hne Htok Hlen Hu) as Hrun.
  rewrite Hb' in Hrun. specialize (Hrun ltac:(simpl; lia)). simpl in Hrun.
  destruct (renewed_spent d email user (bcrypt (salt env') newPassword) Hu)
    as [Hu2 Hgone].
  assert (response var env' reset d1 = mkResponse 500 (Message
            "Error resetting password. Please try again."))
    as Hresponse by (unfold response, reset, d1; by rewrite Hrun).
  assert (d2 = renewed user (bcrypt (salt env') newPassword) d) as ->
    by (unfold d2, store at 1, reset, d1; by rewrite Hrun).
  split_and!; [done..|].
  intros env''. apply resetPassword_refused. intros u Hu'. rewrite Hu2 in Hu'.
  injection Hu' as <-. apply Hgone.
Qed.

End ResetLinks.

(** ** Sessions *)

Section SessionFacts.

Context `{Crypto} `{Sessions}.
Implicit Types (var : Variant) (env : Env) (d : DB) (s header token : string).

(** What a registration answered with 201 has checked and written. *)
Lemma register_created var env d name email password phone :
  code (response var env (PostRegister name email password phone) d) = 201 →
  email ≠ "" ∧ password ≠ ""
  ∧ findUserByEmail d email = None
  ∧ store var env (PostRegister name email password phone) d
    = with_users (λ l, l ++
        [User.mk (fresh (User._id <$> users d)) name email
                 (bcrypt (salt env) password) phone (now env)]) d.
Proof.
  unfold response, store. rewrite register_run.
  destruct (empty name) eqn:E1; [done|].
  destruct (empty email) eqn:E2; [done|].
  destruct (empty password) eqn:E3; [done|].
  destruct (empty phone) eqn:E4; [done|]. simpl.
  destruct (String.length password <? 8); [done|].
  destruct (findUserByEmail d email); [done|].
  assert (email ≠ "" ∧ password ≠ "") as [??] by (split; intros ->; done).
  by destruct (budget env) as [[|k]|].
Qed.

Lemma find_snoc {A : Type} (p : A → bool) (l : list A) (x : A) :
  List.find p l = None → p x = true → List.find p (l ++ [x]) = Some x.
Proof.
  intros Hl Hx. induction l as [|y l IH]; simpl in *; [by rewrite Hx|].
  destruct (p y); [done|]. by apply IH.
Qed.

(** X11. An account that has just been registered can log in: with the
    address and the password of the registration, which bcrypt.compare
    accepts against their hash, login answers 200 with a token signed for
    the new id and the name and address given; a password that
    bcrypt.compare rejects against that hash does not get 200. *)
Theorem register_then_login var env env' d name email password phone :
  code (response var env (PostRegister name email password phone) d) = 201 →
  compare password (bcrypt (salt env) password) = true →
  let d1 := store var env (PostRegister name email password phone) d in
  let id := fresh (User._id <$> users d) in
  login env' email password d1
  = (200, LoggedIn (sign (now env') id email) id name email)
  ∧ ∀ other, compare other (bcrypt (salt env) password) = false →
             (login env' email other d1).1 ≠ 200.
Proof.
  intros Hcode Hcompare d1 id.
  destruct (register_created var env d name email password phone Hcode)
    as (Hemail & Hpassword & Hnone & Hstore).
  assert (findUserByEmail d1 email
          = Some (User.mk id name email (bcrypt (salt env) password) phone
                          (now env))) as Hfind.
  { unfold d1. rewrite Hstore. unfold findUserByEmail in *.
    destruct d as [us vs bs ks ts]. simpl in *.
    apply find_snoc; [done|]. simpl. by apply bool_decide_eq_true_2. }
  unfold login. rewrite Hfind. simpl. rewrite !empty_false by done. simpl.
  rewrite Hcompare. simpl. split; [done|].
  intros other Hother. rewrite Hother. simpl.
  by destruct (empty other).
Qed.

Lemma afterSpace_spaceless s : spaceless s = true → afterSpace s = None.
Proof.
  induction s as [|c s IH]; [done|]. simpl.
  destruct (Ascii.eqb c " "); [done|]. simpl. exact IH.
Qed.

Lemma afterSpace_app s token :
  spaceless s = true → afterSpace (s +:+ " " +:+ token) = Some token.
Proof.
  induction s as [|c s IH]; [done|]. simpl.
  destruct (Ascii.eqb c " "); [done|]. simpl. exact IH.
Qed.

Lemma untilSpace_spaceless s : spaceless s = true → untilSpace s = s.
Proof.
  induction s as [|c s IH]; [done|]. simpl.
  destruct (Ascii.eqb c " "); [done|]. simpl. intros Hs. by rewrite IH.
Qed.

(** X12. authenticateToken reads the second word of the header and
    nothing else: a header of one word, such as a bare token, counts as
    no token, and the word before the token need not be Bearer, any word
    gives the same result. *)
Theorem authorize_reads_second_word env :
  authorize env None = NoToken
  ∧ (∀ header, spaceless header = true → authorize env (Some header) = NoToken)
  ∧ (∀ scheme token,
       spaceless scheme = true →
       authorize env (Some (scheme +:+ " " +:+ token))
       = authorize env (Some ("Bearer " +:+ token))).
Proof.
  split_and!; [done| |].
  - intros header Hs. unfold authorize, secondWord. simpl.
    by rewrite afterSpace_spaceless.
  - intros scheme token Hs. unfold authorize, secondWord. simpl.
    by rewrite afterSpace_app.
Qed.

(** X13. The token that login hands out opens the guarded routes for
    the account it was issued to: when jwt.verify accepts the token at
    the time of the request, the header that the page builds from it is
    read as that account. *)
Theorem login_token_is_accepted env env' d email password user :
  email ≠ "" → password ≠ "" →
  findUserByEmail d email = Some user →
  compare password (User.password user) = true →
  let token := sign (now env) (User._id user) (User.email user) in
  token ≠ "" → spaceless token = true →
  verify (now env') token = Some (User._id user) →
  login env email password d
  = (200, LoggedIn token (User._id user) (User.name user) (User.email user))
  ∧ authorize env' (Some (bearer (Some token))) = Bearer (User._id user).
Proof.
  intros Hemail Hpassword Hfind Hcompare token Hne Hs Hverify. split.
  - unfold login. rewrite !empty_false by done. simpl.
    by rewrite Hfind, Hcompare.
  - unfold authorize, bearer, secondWord. simpl.
    fold token. rewrite untilSpace_spaceless, empty_false by done.
    change ("" +:+ token) with token. by rewrite Hverify.
Qed.

(** X14. A page on which nobody is logged in sends the word null as
    token, so the guarded routes answer it with 403, for an invalid
    token, and not with 401, for a missing one; the store is left as it
    was. *)
Theorem logged_out_page_gets_403 var env d form files vehicleId amount :
  verify (now env) "null" = None →
  let a := authorize env (Some (bearer None)) in
  a = InvalidToken
  ∧ ∀ req,
      req ∈ [PostVehicles a form files; PostBids a vehicleId amount;
             PostBookings a vehicleId] →
      response var env req d = mkResponse 403 (Message "Invalid or expired token")
      ∧ store var env req d = d.
Proof.
  intros Hverify a.
  assert (a = InvalidToken) as ->.
  { unfold a, authorize, bearer, secondWord. simpl. by rewrite Hverify. }
  split; [done|]. intros req Hreq.
  repeat (apply elem_of_cons in Hreq as [->|Hreq]; [done|]).
  by apply elem_of_nil in Hreq.
Qed.

End SessionFacts.

(** ** Pages *)

Section Pages.

Context `{Crypto}.
Implicit Types (var : Variant) (env : Env) (d : DB) (userId : oid).

(** What a posting answered with 201 has checked and written. *)
Lemma postVehicle_created var env d userId form files :
  code (response var env (PostVehicles (Bearer userId) form files) d) = 201 →
  files ≠ []
  ∧ store var env (PostVehicles (Bearer userId) form files) d
    = with_vehicles (insert (fresh (dom (vehicles d)))
                            (vehicleFor var env userId form files)) d.
Proof.
  run_handler. unfold vehicleFor.
  destruct (empty (f_brand form) || empty (f_model form) || empty (f_year form)
            || empty (f_price form) || empty (f_type form)
            || empty (f_condition form) || empty (f_mileage form)
            || empty (f_contactName form) || empty (f_contactPhone form));
    [done|].
  case_bool_decide as Hfiles; [done|].
  destruct var, (budget env) as [[|[|k]]|]; simpl; try done.
  all: by destruct d.
Qed.

(** X15. A vehicle that has been posted has its page: after a posting
    answered with 201, the route of the single vehicle finds, under an id
    that gave 404 before, the document built from the form, available and
    with the contact of the caller as seller; the pages of the other ids
    are as before. *)
Theorem posted_vehicle_has_a_page var env d userId form files :
  code (response var env (PostVehicles (Bearer userId) form files) d) = 201 →
  let d1 := store var env (PostVehicles (Bearer userId) form files) d in
  let id := fresh (dom (vehicles d)) in
  getVehicle id d = (404, Notice "Vehicle not found")
  ∧ getVehicle id d1
    = (200, VehiclePage id (vehicleFor var env userId form files)
                        (contact d userId))
  ∧ ∀ id', id' ≠ id → getVehicle id' d1 = getVehicle id' d.
Proof.
  intros Hcode d1 id.
  destruct (postVehicle_created var env d userId form files Hcode) as [_ Hstore].
  assert (vehicles d !! id = None) as Hfresh.
  { apply not_elem_of_dom. apply is_fresh. }
  unfold d1. rewrite Hstore. unfold getVehicle, contact, findUserById.
  destruct d as [us vs bs ks ts]. simpl in *. split_and!.
  - by rewrite Hfresh.
  - by rewrite lookup_insert_eq.
  - intros id' Hne. by rewrite lookup_insert_ne.
Qed.

(** What a confirmation answered with 201 has checked and written. *)
Lemma confirmBooking_created var env d userId vehicleId :
  code (response var env (PostBookings (Bearer userId) vehicleId) d) = 201 →
  ∃ vid vehicle w,
    vehicleId = Some vid
    ∧ vehicles d !! vid = Some vehicle
    ∧ Vehicle.status vehicle = "available"
    ∧ Vehicle.sellerId vehicle = userId
    ∧ highestPending d vid = Some w
    ∧ store var env (PostBookings (Bearer userId) vehicleId) d
      = applyWrites (confirmWrites (bookingFor env d vid vehicle w) vid (Bid._id w)) d.
Proof.
  intros Hcode.
  destruct (confirm_guards d userId vehicleId)
    as [[r Hr]|(vid & vehicle & w & -> & Hv & Hs & Hu & Hw)].
  - unfold response in Hcode.
    rewrite (confirmBooking_refused var env d userId vehicleId r Hr) in Hcode.
    by destruct Hr.
  - exists vid, vehicle, w. split_and!; [done..|].
    unfold response, store in *.
    rewrite (confirmBooking_run var env d userId vid vehicle w) in * by done.
    simpl in *. case_decide as Hk; [|done]. by rewrite Hk.
Qed.

Lemma insert_newest_Permutation {A : Type} (createdAt : A → nat) x (l : list A) :
  insert_newest createdAt x l ≡ₚ x :: l.
Proof.
  induction l as [|y l IH]; simpl; [done|].
  destruct (createdAt y <=? createdAt x); [done|].
  by rewrite IH, Permutation_swap.
Qed.

Lemma newest_first_Permutation {A : Type} (createdAt : A → nat) (l : list A) :
  newest_first createdAt l ≡ₚ l.
Proof.
  induction l as [|x l IH]; simpl; [done|].
  by rewrite insert_newest_Permutation, IH.
Qed.

Lemma elem_of_bookingsOf d userId booking :
  booking ∈ bookingsOf d userId
  ↔ booking ∈ bookings d
    ∧ (Booking.buyerId booking = userId ∨ Booking.sellerId booking = userId).
Proof.
  unfold bookingsOf. rewrite newest_first_Permutation, list_elem_of_filter. tauto.
Qed.

(** X16. A confirmed booking is shown to both parties and to nobody
    else. After a confirmation answered with 201, the page of the
    bookings of the buyer and that of the seller list the new booking,
    together with the vehicle, now sold, and the contacts of both; the
    page of any user lists what it listed before and, for these two,
    the new booking. *)
Theorem booking_shown_to_both_parties var env d userId vehicleId :
  code (response var env (PostBookings (Bearer userId) vehicleId) d) = 201 →
  let d1 := store var env (PostBookings (Bearer userId) vehicleId) d in
  ∃ vid vehicle booking,
    vehicleId = Some vid
    ∧ vehicles d !! vid = Some vehicle
    ∧ Booking.vehicleId booking = vid
    ∧ Booking.sellerId booking = userId
    ∧ (∀ u booking',
         booking' ∈ bookingsOf d1 u
         ↔ booking' ∈ bookingsOf d u
           ∨ (booking' = booking ∧ (u = Booking.buyerId booking ∨ u = userId)))
    ∧ (∀ u, u = Booking.buyerId booking ∨ u = userId →
         ∃ listing,
           getUserBookings (Bearer u) d1 = (200, MyBookingsPage listing)
           ∧ (booking, Some (Vehicle.set_status "sold" vehicle),
              contact d (Booking.buyerId booking), contact d userId) ∈ listing).
Proof.
  intros Hcode d1.
  destruct (confirmBooking_created var env d userId vehicleId Hcode)
    as (vid & vehicle & w & -> & Hv & Hs & Hu & Hw & Hstore).
  exists vid, vehicle, (bookingFor env d vid vehicle w).
  assert (bookings d1 = bookings d ++ [bookingFor env d vid vehicle w]) as Hbookings.
  { unfold d1. rewrite Hstore. by destruct d. }
  assert (vehicles d1 !! vid = Some (Vehicle.set_status "sold" vehicle)) as Hsold.
  { unfold d1. rewrite Hstore. destruct d as [us vs bs ks ts]. simpl in *.
    by rewrite lookup_alter_eq, Hv. }
  assert (users d1 = users d) as Husers.
  { unfold d1. rewrite Hstore. by destruct d. }
  assert (∀ u booking',
            booking' ∈ bookingsOf d1 u
            ↔ booking' ∈ bookingsOf d u
              ∨ (booking' = bookingFor env d vid vehicle w
                 ∧ (u = Booking.buyerId (bookingFor env d vid vehicle w)
                    ∨ u = userId))) as Hshown.
  { intros u booking'. rewrite !elem_of_bookingsOf, Hbookings, elem_of_app.
    rewrite list_elem_of_singleton. simpl. split.
    - intros [[Hin| ->] Hparty]; [left; done|right]. simpl in Hparty.
      rewrite Hu in Hparty. split; [done|]. destruct Hparty; auto.
    - intros [[Hin Hparty]|[-> Hparty]]; [split; [by left|done]|].
      split; [by right|]. simpl. rewrite Hu. destruct Hparty; auto. }
  split_and!; [done..| |done|].
  - done.
  - intros u Hparty. eexists. split; [done|].
    apply list_elem_of_fmap.
    exists (bookingFor env d vid vehicle w). split.
    + simpl. rewrite Hsold. unfold contact, findUserById. rewrite Husers.
      by rewrite Hu.
    + apply Hshown. by right.
Qed.

End Pages.

(** ** The client and the server *)

Section Client.

Context `{Crypto} `{Sessions}.
Implicit Types (var : Variant) (env : Env) (d : DB).

(** X17. The page never sends a registration that the server refuses
    for its password: what handleRegister sends has the password typed
    twice and at least 8 characters of it, so the server does not answer
    that the password must be at least 8 characters. The page does not
    look at the other fields, which the server can still find missing. *)
Theorem handleRegister_passes_password_check var env d
    name email phone password confirmPassword req :
  handleRegister name email phone password confirmPassword = Sent req →
  req = PostRegister name email password phone
  ∧ password = confirmPassword
  ∧ 8 ≤ String.length password
  ∧ body (response var env req d)
    ≠ Message "Password must be at least 8 characters".
Proof.
  unfold handleRegister.
  destruct (String.eqb password confirmPassword) eqn:Heq; [|done]. simpl.
  destruct (String.length password <? 8) eqn:Hlen; [done|].
  intros [= <-]. apply String.eqb_eq in Heq.
  pose proof (proj1 (Nat.ltb_ge _ _) Hlen) as Hge.
  split_and!; [done..|].
  unfold response. rewrite register_run.
  destruct (empty name || empty email || empty password || empty phone); [done|].
  rewrite Hlen. destruct (findUserByEmail d email); [done|].
  by destruct (budget env) as [[|k]|].
Qed.

(** X18. A vehicle form that passes the checks of the page passes those
    of the server: when handleSellVehicle sends the form, with between 1
    and 10 pictures, and the server receives as many files as were sent,
    postVehicle does not answer 400, whatever the token. *)
Theorem sell_form_passes_server_checks var env d
    currentUser token form imageFiles header form' images files :
  handleSellVehicle currentUser token form imageFiles = Sent (header, form', images) →
  length files = length images →
  header = bearer token ∧ form' = form ∧ images = imageFiles
  ∧ 1 ≤ length images ≤ 10
  ∧ code (response var env
            (PostVehicles (authorize env (Some header)) form' files) d) ≠ 400.
Proof.
  unfold handleSellVehicle. destruct currentUser; [|done]. simpl.
  destruct (empty (f_brand form) || empty (f_model form) || empty (f_year form)
            || empty (f_price form) || empty (f_type form)
            || empty (f_condition form) || empty (f_mileage form)
            || empty (f_contactName form) || empty (f_contactPhone form))
    eqn:Hfields; [done|].
  destruct (length imageFiles =? 0) eqn:Hzero; [done|].
  destruct (10 <? length imageFiles) eqn:Hten; [done|].
  intros [= <- <- <-] Hlen.
  apply Nat.eqb_neq in Hzero. apply Nat.ltb_ge in Hten.
  split_and!; [done..|lia|lia|].
  destruct (authorize env (Some (bearer token))) as [| |userId]; [done..|].
  run_handler. rewrite Hfields.
  rewrite bool_decide_eq_false_2 by (intros ->; simpl in Hlen; lia).
  by destruct var, (budget env) as [[|[|k]]|].
Qed.

(** X19. The page lets through pictures that are larger than the limit
    of the server: handleImageSelection keeps up to 10 pictures of at
    most 5 * 1024 * 1024 bytes each and nothing else, and that bound is
    above the fileSize limit given to multer, so a picture between the
    two is kept by the page. *)
Theorem handleImageSelection_bounds (files : list File) :
  (handleImageSelection files = Some files
   ↔ length files ≤ 10 ∧ Forall (λ file, (file_size file ≤ 5242880)%N) files)
  ∧ (handleImageSelection files = None ∨ handleImageSelection files = Some files)
  ∧ ∀ file, (fileSize < file_size file ≤ 5242880)%N →
            handleImageSelection [file] = Some [file].
Proof.
  assert (handleImageSelection files = Some files
          ↔ length files ≤ 10 ∧ Forall (λ file, (file_size file ≤ 5242880)%N) files)
    as Hiff.
  { unfold handleImageSelection.
    destruct (10 <? length files) eqn:Hten.
    { apply Nat.ltb_lt in Hten. split; [done|]. intros [? _]. lia. }
    apply Nat.ltb_ge in Hten.
    destruct (existsb _ files) eqn:Hbig.
    - split; [done|]. intros [_ Hall].
      apply existsb_exists in Hbig as (file & Hin & Hsize).
      apply list_elem_of_In in Hin. rewrite Forall_forall in Hall.
      specialize (Hall file Hin). apply N.ltb_lt in Hsize. lia.
    - split; [|done]. intros _. split; [done|].
      apply Forall_forall. intros file Hin.
      destruct (decide (file_size file ≤ 5242880)%N) as [|Hgt]; [done|].
      assert (existsb (λ file, (5 * 1024 * 1024 <? file_size file)%N) files = true)
        as Habs; [|congruence].
      apply existsb_exists. exists file. split; [by apply list_elem_of_In|].
      apply N.ltb_lt. lia. }
  split_and!; [done| |].
  - unfold handleImageSelection. by repeat case_match; auto.
  - intros file [_ Hsize]. unfold handleImageSelection. simpl.
    rewrite (proj2 (N.ltb_ge _ _)) by lia. done.
Qed.

End Client.

(** ** Further scenarios *)

Section OfficeScenarios.

Local Existing Instance Demo.crypto.
Local Existing Instance Office.sessions.

Lemma floor_only_rises_witness :
  floor_kept Demo.listed
  ∧ rising (pending (run Local Office.two_bids Demo.listed) 7)
  ∧ highestPending (run Local Office.two_bids Demo.listed) 7
    = last (pending (run Local Office.two_bids Demo.listed) 7).
Proof.
  assert (floor_kept Demo.listed) as Hd by (intros vehicleId; constructor).
  destruct (floor_only_rises Local Office.two_bids Demo.listed 7 Hd)
    as [Hrising Hlast].
  split_and!; [exact Hd|exact Hrising|].
  apply Hlast. vm_compute. repeat constructor.
Defined.

Lemma sold_vehicle_stays_closed_witness :
  budget Demo.env = None
  ∧ vehicles Demo.bidding !! 7 = Some Demo.car
  ∧ Vehicle.status Demo.car = "available"
  ∧ pending Demo.bidding 7 ≠ []
  ∧ code (response Local Demo.env Demo.confirm Demo.bidding) = 201
  ∧ response Local Demo.env (GetBids 7)
      (run Local [(Demo.env, PostBids (Bearer 2) (Some 7) (VStr "20000"))]
           (store Local Demo.env Demo.confirm Demo.bidding))
    = mkResponse 200 (BidList []).
Proof.
  assert (pending Demo.bidding 7 ≠ []) as Hp by (vm_compute; discriminate).
  destruct (sold_vehicle_stays_closed Local Demo.env
              [(Demo.env, PostBids (Bearer 2) (Some 7) (VStr "20000"))]
              Demo.bidding 7 Demo.car eq_refl eq_refl eq_refl Hp)
    as (Hcode & Hlist & _).
  split_and!; [reflexivity..|exact Hp|exact Hcode|].
  exact (f_equal (λ x, x.1.1) (Hlist Demo.env)).
Defined.

Lemma never_booked_twice_witness :
  booked_once Demo.bidding
  ∧ faultless [(Demo.env, Demo.confirm); (Demo.env, Demo.confirm)]
  ∧ booked_once
      (run Local [(Demo.env, Demo.confirm); (Demo.env, Demo.confirm)] Demo.bidding).
Proof.
  assert (booked_once Demo.bidding) as Hd.
  { split; [apply NoDup_nil_2|]. intros booking Hin. by apply elem_of_nil in Hin. }
  assert (faultless [(Demo.env, Demo.confirm); (Demo.env, Demo.confirm)]) as Hok
    by (repeat constructor).
  split_and!; [exact Hd|exact Hok|].
  exact (never_booked_twice Local _ Demo.bidding Hd Hok).
Defined.

Lemma bid_settled_once_witness :
  unique_bid_ids Demo.sold
  ∧ Bid.mk 1 7 3 (Fin 15000) "accepted" 300 ∈ bids Demo.sold
  ∧ Bid.mk 1 7 3 (Fin 15000) "accepted" 300
    ∈ bids (run Local [(Demo.env, Demo.confirm)] Demo.sold).
Proof.
  assert (unique_bid_ids Demo.sold) as Hids.
  { unfold unique_bid_ids. simpl.
    apply NoDup_cons. split; [|apply NoDup_singleton].
    intros Hin. apply list_elem_of_singleton in Hin. discriminate. }
  assert (Bid.mk 1 7 3 (Fin 15000) "accepted" 300 ∈ bids Demo.sold) as Hb.
  { simpl. apply elem_of_cons. right. apply elem_of_cons. by left. }
  destruct (bid_settled_once Local Demo.sold _ Hids Hb) as [_ Hstays].
  split_and!; [exact Hids|exact Hb|].
  apply Hstays. discriminate.
Defined.

Lemma addresses_stay_distinct_witness :
  unique_emails Demo.listed
  ∧ unique_emails
      (run Local [(Demo.env, Office.newcomer); (Demo.env, Office.newcomer)]
           Demo.listed).
Proof.
  assert (unique_emails Demo.listed) as Hd.
  { unfold unique_emails. simpl. repeat (apply NoDup_cons; split).
    - intros Hin. repeat (apply elem_of_cons in Hin as [Hin|Hin]; [discriminate|]).
      by apply elem_of_nil in Hin.
    - intros Hin. repeat (apply elem_of_cons in Hin as [Hin|Hin]; [discriminate|]).
      by apply elem_of_nil in Hin.
    - intros Hin. by apply elem_of_nil in Hin.
    - apply NoDup_nil_2. }
  split; [exact Hd|].
  exact (proj1 (addresses_stay_distinct Local _ Demo.listed Hd)).
Defined.

Lemma only_the_newest_link_verifies_witness :
  budget Demo.env = None
  ∧ "bea@example.com" ≠ ""
  ∧ findUserByEmail Demo.listed "bea@example.com" = Some Office.bea
  ∧ (verifyResetToken "c0ffee" "bea@example.com"
       (store Serverless Demo.env Office.forgot Demo.listed)).1 = 200.
Proof.
  assert ("bea@example.com" ≠ "") as Hne by discriminate.
  split_and!; [reflexivity|exact Hne|reflexivity|].
  apply (only_the_newest_link_verifies Serverless Demo.env Demo.listed
           "bea@example.com" Office.bea "c0ffee" eq_refl Hne eq_refl).
  split; [discriminate|reflexivity].
Defined.

Lemma reset_link_works_once_witness :
  budget Demo.env = None
  ∧ "bea@example.com" ≠ ""
  ∧ randomBytes Demo.env ≠ ""
  ∧ 8 ≤ String.length "battery staple"
  ∧ findUserByEmail Demo.listed "bea@example.com" = Some Office.bea
  ∧ code (response Serverless Demo.env Office.reset
            (store Serverless Demo.env Office.forgot Demo.listed)) = 200
  ∧ code (response Serverless Demo.env Office.reset
            (store Serverless Demo.env Office.reset
               (store Serverless Demo.env Office.forgot Demo.listed))) = 400.
Proof.
  assert ("bea@example.com" ≠ "") as Hne by discriminate.
  assert (randomBytes Demo.env ≠ "") as Htoken by discriminate.
  assert (8 ≤ String.length "battery staple") as Hlen by (simpl; lia).
  destruct (reset_link_works_once Serverless Demo.env Demo.env Demo.listed
              "bea@example.com" Office.bea "battery staple"
              eq_refl eq_refl Hne Htoken Hlen eq_refl)
    as (Hcode & _ & _ & Hagain).
  split_and!; [reflexivity|exact Hne|exact Htoken|exact Hlen|reflexivity
              |exact Hcode|].
  exact (proj1 (Hagain Demo.env "c0ffee" "battery staple")).
Defined.

Lemma resetPassword_mail_failure_witness :
  budget Demo.env = None
  ∧ budget (Demo.failing 2) = Some 2
  ∧ "bea@example.com" ≠ ""
  ∧ randomBytes Demo.env ≠ ""
  ∧ 8 ≤ String.length "battery staple"
  ∧ findUserByEmail Demo.listed "bea@example.com" = Some Office.bea
  ∧ response Serverless (Demo.failing 2) Office.reset
      (store Serverless Demo.env Office.forgot Demo.listed)
    = mkResponse 500 (Message "Error resetting password. Please try again.")
  ∧ code (response Serverless Demo.env Office.reset
            (store Serverless (Demo.failing 2) Office.reset
               (store Serverless Demo.env Office.forgot Demo.listed))) = 400.
Proof.
  assert ("bea@example.com" ≠ "") as Hne by discriminate.
  assert (randomBytes Demo.env ≠ "") as Htoken by discriminate.
  assert (8 ≤ String.length "battery staple") as Hlen by (simpl; lia).
  destruct (resetPassword_mail_failure Serverless Demo.env (Demo.failing 2)
              Demo.listed "bea@example.com" Office.bea "battery staple"
              eq_refl eq_refl Hne Htoken Hlen eq_refl)
    as (Hresponse & _ & Hagain).
  split_and!; [reflexivity|reflexivity|exact Hne|exact Htoken|exact Hlen
              |reflexivity|exact Hresponse|exact (Hagain Demo.env)].
Defined.

Lemma register_then_login_witness :
  code (response Local Demo.env Office.newcomer Demo.listed) = 201
  ∧ compare "correct horse" (bcrypt (salt Demo.env) "correct horse") = true
  ∧ login Demo.env "dee@example.com" "correct horse"
      (store Local Demo.env Office.newcomer Demo.listed)
    = (200, LoggedIn "jwt.IIII" 4 "Dee" "dee@example.com")
  ∧ (login Demo.env "dee@example.com" "battery staple"
       (store Local Demo.env Office.newcomer Demo.listed)).1 ≠ 200.
Proof.
  assert (code (response Local Demo.env Office.newcomer Demo.listed) = 201)
    as Hcode by (vm_compute; reflexivity).
  assert (compare "correct horse" (bcrypt (salt Demo.env) "correct horse") = true)
    as Hcompare by (vm_compute; reflexivity).
  destruct (register_then_login Local Demo.env Demo.env Demo.listed
              "Dee" "dee@example.com" "correct horse" "555-0104"
              Hcode Hcompare) as [Hlogin Hother].
  split_and!; [exact Hcode|exact Hcompare|exact Hlogin|].
  apply Hother. vm_compute. reflexivity.
Defined.

Lemma login_token_is_accepted_witness :
  "dee@example.com" ≠ "" ∧ "correct horse" ≠ ""
  ∧ findUserByEmail (store Local Demo.env Office.newcomer Demo.listed)
      "dee@example.com" = Some Office.dee
  ∧ compare "correct horse" (User.password Office.dee) = true
  ∧ sign 1000 4 "dee@example.com" ≠ ""
  ∧ spaceless (sign 1000 4 "dee@example.com") = true
  ∧ verify 2000 (sign 1000 4 "dee@example.com") = Some 4
  ∧ authorize (mkEnv 2000 "" "" "" None "")
      (Some (bearer (Some (sign 1000 4 "dee@example.com")))) = Bearer 4.
Proof.
  assert ("dee@example.com" ≠ "") as Hemail by discriminate.
  assert ("correct horse" ≠ "") as Hpassword by discriminate.
  assert (findUserByEmail (store Local Demo.env Office.newcomer Demo.listed)
            "dee@example.com" = Some Office.dee) as Hfind
    by (vm_compute; reflexivity).
  assert (compare "correct horse" (User.password Office.dee) = true) as Hcompare
    by (vm_compute; reflexivity).
  assert (sign 1000 4 "dee@example.com" ≠ "") as Htoken by discriminate.
  assert (spaceless (sign 1000 4 "dee@example.com") = true) as Hspaceless
    by (vm_compute; reflexivity).
  assert (verify 2000 (sign 1000 4 "dee@example.com") = Some 4) as Hverify
    by (vm_compute; reflexivity).
  destruct (login_token_is_accepted Demo.env (mkEnv 2000 "" "" "" None "")
              (store Local Demo.env Office.newcomer Demo.listed)
              "dee@example.com" "correct horse" Office.dee
              Hemail Hpassword Hfind Hcompare Htoken Hspaceless Hverify)
    as [_ Hauthorize].
  split_and!; [exact Hemail|exact Hpassword|exact Hfind|exact Hcompare|exact Htoken
              |exact Hspaceless|exact Hverify|exact Hauthorize].
Defined.

Lemma logged_out_page_gets_403_witness :
  verify (now Demo.env) "null" = None
  ∧ response Local Demo.env
      (PostBids (authorize Demo.env (Some (bearer None))) (Some 7) (VStr "20000"))
      Demo.listed
    = mkResponse 403 (Message "Invalid or expired token").
Proof.
  assert (verify (now Demo.env) "null" = None) as Hverify
    by (vm_compute; reflexivity).
  destruct (logged_out_page_gets_403 Local Demo.env Demo.listed Office.civic []
              (Some 7) (VStr "20000") Hverify) as [_ Hall].
  split; [exact Hverify|].
  apply Hall. apply elem_of_cons. right. apply elem_of_cons. by left.
Defined.

Lemma posted_vehicle_has_a_page_witness :
  code (response Local Demo.env
          (PostVehicles (Bearer 1) Office.civic ["civic.jpg"]) Demo.listed) = 201
  ∧ getVehicle 8 Demo.listed = (404, Notice "Vehicle not found")
  ∧ getVehicle 8
      (store Local Demo.env (PostVehicles (Bearer 1) Office.civic ["civic.jpg"])
             Demo.listed)
    = (200, VehiclePage 8 (vehicleFor Local Demo.env 1 Office.civic ["civic.jpg"])
                        (Some (1, "Sam", "sam@example.com", "555-0101"))).
Proof.
  assert (code (response Local Demo.env
                    (PostVehicles (Bearer 1) Office.civic ["civic.jpg"])
                    Demo.listed) = 201) as Hcode by (vm_compute; reflexivity).
  destruct (posted_vehicle_has_a_page Local Demo.env Demo.listed 1 Office.civic
              ["civic.jpg"] Hcode) as (Hbefore & Hafter & _).
  split_and!; [exact Hcode|exact Hbefore|exact Hafter].
Defined.

Lemma booking_shown_to_both_parties_witness :
  code (response Local Demo.env Demo.confirm Demo.bidding) = 201
  ∧ ∃ booking,
      Booking.buyerId booking = 3
      ∧ booking ∈ bookingsOf (store Local Demo.env Demo.confirm Demo.bidding) 3
      ∧ booking ∈ bookingsOf (store Local Demo.env Demo.confirm Demo.bidding) 1
      ∧ booking ∉ bookingsOf (store Local Demo.env Demo.confirm Demo.bidding) 2.
Proof.
  assert (code (response Local Demo.env Demo.confirm Demo.bidding) = 201) as Hcode
    by (vm_compute; reflexivity).
  split; [exact Hcode|].
  destruct (booking_shown_to_both_parties Local Demo.env Demo.bidding 1 (Some 7)
              Hcode) as (vid & vehicle & booking & _ & _ & _ & _ & Hshown & _).
  exists (Booking.mk 0 7 3 1 1 (Fin 15000) "confirmed" 1000).
  split_and!; [reflexivity|vm_compute; apply elem_of_cons; by left
              |vm_compute; apply elem_of_cons; by left|].
  vm_compute. intros Hin. by apply elem_of_nil in Hin.
Defined.

Lemma handleRegister_passes_password_check_witness :
  handleRegister "Dee" "dee@example.com" "555-0104" "correct horse" "correct horse"
  = Sent Office.newcomer
  ∧ body (response Local Demo.env Office.newcomer Demo.listed)
    ≠ Message "Password must be at least 8 characters".
Proof.
  assert (handleRegister "Dee" "dee@example.com" "555-0104" "correct horse"
                         "correct horse" = Sent Office.newcomer) as Hsent
    by (vm_compute; reflexivity).
  split; [exact Hsent|].
  exact (proj2 (proj2 (proj2
    (handleRegister_passes_password_check Local Demo.env Demo.listed
       "Dee" "dee@example.com" "555-0104" "correct horse" "correct horse"
       Office.newcomer Hsent)))).
Defined.

Lemma sell_form_passes_server_checks_witness :
  handleSellVehicle true (Some "jwt.I") Office.civic [mkFile "civic.jpg" 204800]
  = Sent ("Bearer jwt.I", Office.civic, [mkFile "civic.jpg" 204800])
  ∧ length ["1700000000000-1.jpg"] = length [mkFile "civic.jpg" 204800]
  ∧ code (response Local Demo.env
            (PostVehicles (authorize Demo.env (Some "Bearer jwt.I")) Office.civic
                          ["1700000000000-1.jpg"]) Demo.listed) ≠ 400.
Proof.
  assert (handleSellVehicle true (Some "jwt.I") Office.civic
            [mkFile "civic.jpg" 204800]
          = Sent ("Bearer jwt.I", Office.civic, [mkFile "civic.jpg" 204800]))
    as Hsent by (vm_compute; reflexivity).
  split_and!; [exact Hsent|reflexivity|].
  exact (proj2 (proj2 (proj2 (proj2
    (sell_form_passes_server_checks Local Demo.env Demo.listed true (Some "jwt.I")
       Office.civic [mkFile "civic.jpg" 204800] "Bearer jwt.I" Office.civic
       [mkFile "civic.jpg" 204800] ["1700000000000-1.jpg"] Hsent eq_refl))))).
Defined.

End OfficeScenarios.

(** ** parseFloat and parseInt on examples *)

Example parseFloat_10001 : parseFloat (VStr "10001") = Fin 10001.
Proof. vm_compute. reflexivity. Qed.
Example parseFloat_frac : parseFloat (VStr "  -12.5e1xyz") = Fin (-125).
Proof. vm_compute. reflexivity. Qed.
Example parseFloat_tenth :
  parseFloat (VStr "0.1") = Fin (3602879701896397 # 36028797018963968).
Proof. vm_compute. reflexivity. Qed.
Example parseFloat_round :
  parseFloat (VStr "10000.0000000000001") = Fin 10000.
Proof. vm_compute. reflexivity. Qed.
Example parseFloat_abc : parseFloat (VStr "abc") = NaN.
Proof. vm_compute. reflexivity. Qed.
Example parseFloat_dot : parseFloat (VStr ".") = NaN.
Proof. vm_compute. reflexivity. Qed.
Example parseFloat_inf : parseFloat (VStr "-Infinity") = NegInf.
Proof. vm_compute. reflexivity. Qed.
Example parseFloat_huge : parseFloat (VStr "1e400") = PosInf.
Proof. vm_compute. reflexivity. Qed.
Example parseInt_hex : Parse.parseInt_string "0x1F" = Fin 31.
Proof. vm_compute. reflexivity. Qed.
Example parseInt_unit : Parse.parseInt_string " 30000km" = Fin 30000.
Proof. vm_compute. reflexivity. Qed.
Example parseInt_none : Parse.parseInt_string "km" = NaN.
Proof. vm_compute. reflexivity. Qed.
